(** * TILT risk scoring and OSINT checks: a shallow embedding

    The development follows [backend/risk_calculator.py] and the two
    resilient checks of [backend/osint_service.py].

    Modelling conventions.
    - Python [int] is [Z].  The calculators are given twice.  First over
      exact rationals [Q]: every [/] of the source is a rational division,
      the literal [1.2] is [12/10], and no result is rounded; equality of
      rational results is [Qeq] ([==]).  This is the model of the bounds,
      the floors and the relations between runs, which do not depend on
      rounding.  Then, in [Double], over IEEE 754 binary64: every float
      operation is rounded to the nearest double, an [int] too large for a
      float raises, infinities and NaN behave as in Python.  This is the
      model of what depends on the exact double: the tier a total falls
      in, the integer a mean is rounded to, an overflow.
    - [round(x)] is Python 3 rounding: to the nearest integer, a tie going
      to the even neighbour.
    - [max(a, b)] and [min(a, b)] return their first argument unless the
      second is strictly larger (resp. smaller); [Qmax], [Qmin], [Z.max]
      and [Z.min] agree with that.
    - A [dict] keyed by integers is a [gmap Z _]; a JSON [null] value is
      [None] inside the map, an absent key is a failed lookup.
    - The dictionaries describing a question, a criterion or the OSINT
      results are records whose optional fields are [None] when the key is
      absent or [null].
    - Python [str] is [string], read as ASCII text; [bytes] is a list of
      bytes, and [str] of a [bytes] object is its [repr].
    - The checks of [osint_service.py] read the clock, the network and the
      module-level [_cache]; the model passes the cache in and out and
      takes what the clock and the network answer from an [Env]. *)

From Stdlib Require Import ZArith QArith Qround Qminmax Qabs Qpower Qreduction.
From Stdlib Require Import Lqa Lia String Ascii.
From Stdlib Require Import DecimalString Strings.Byte.
From Stdlib Require SpecFloat.
From stdpp Require Import gmap strings list.

Open Scope Z_scope.

(** ** Python numerics *)

(** [round(q)] on a float: nearest integer, ties to even. *)
Definition py_round (q : Q) : Z :=
  let f := Qfloor q in
  match (q - inject_Z f ?= 1 # 2)%Q with
  | Lt => f
  | Gt => f + 1
  | Eq => if Z.even f then f else f + 1
  end.

(** [x < y] on floats, as a boolean. *)
Definition Qlt_bool (x y : Q) : bool :=
  match (x ?= y)%Q with Lt => true | _ => false end.

(** [sum(l)] on a list of integers. *)
Definition py_sum (l : list Z) : Z := fold_left Z.add l 0.

(** ** Data model *)

(** A question of the standard track: [q['id']] and [q.get('weight')]. *)
Record Question := mkQuestion {
  q_id : Z;
  q_weight : option string
}.

(** A criterion of the cloud track: [c['id']], [c.get('points')] (absent
    when [None]) and [c.get('criticality')]. *)
Record Criterion := mkCriterion {
  c_id : Z;
  c_points : option Q;
  c_criticality : option string
}.

(** [osint_results]: each field is [None] when the key is absent or null.
    The argument itself is an [option]: [None] stands for Python's [None]
    and for the empty dictionary, both of which fail [if osint_results:]. *)
Record OsintResults := mkOsint {
  ransomware : option bool;
  ssl : option string;
  dmarc : option bool
}.

(** The dictionary returned by [calc_cloud_vulnerability]. *)
Record CloudResult := mkCloudResult {
  score : Z;
  maxScore : Z;
  vulnerability : Z;
  status : string;
  statusColor : string;
  missedCritical : bool
}.

(** ** risk_calculator.py in exact arithmetic *)

(** The calculators with every float of the source read as the rational
    number it approximates: the model for bounds, floors and the relations
    between runs.  Whatever turns on the exact double (a total next to a
    threshold, a mean next to a half, an overflow) is stated of the
    calculators on doubles, which follow in [Double]. *)

(** [osint_results.get('ssl') in ('F', 'Expired')] *)
Definition ssl_failing (o : OsintResults) : bool :=
  bool_decide (ssl o = Some "F"%string) || bool_decide (ssl o = Some "Expired"%string).

(** [osint_results.get('dmarc') is False] *)
Definition dmarc_missing (o : OsintResults) : bool :=
  bool_decide (dmarc o = Some false).

(** [osint_results.get('ransomware') is True], under [if osint_results]. *)
Definition ransomware_hit (osint_results : option OsintResults) : bool :=
  match osint_results with
  | Some o => bool_decide (ransomware o = Some true)
  | None => false
  end.

(** Lines 42-48: the floor adjustment on the float [vuln]. *)
Definition osint_floor (osint_results : option OsintResults) (vuln : Q) : Q :=
  match osint_results with
  | Some o =>
      let vuln := if ssl_failing o then Qmax vuln 80 else vuln in
      if dmarc_missing o then Qmax vuln 60 else vuln
  | None => vuln
  end.

(** Lines 80-86: the same adjustment on the already rounded [vuln]. *)
Definition osint_floor_int (osint_results : option OsintResults) (vuln : Z) : Z :=
  match osint_results with
  | Some o =>
      let vuln := if ssl_failing o then Z.max vuln 80 else vuln in
      if dmarc_missing o then Z.max vuln 60 else vuln
  | None => vuln
  end.

(** Line 29: [3 if Critical else (2 if High else 1)]. *)
Definition weight_of (q : Question) : Z :=
  if bool_decide (q_weight q = Some "Critical"%string) then 3
  else if bool_decide (q_weight q = Some "High"%string) then 2
  else 1.

(** One iteration of the loop of lines 22-32 on the pair
    [(total_weight, weighted_score)]. *)
Definition vuln_step (answers : gmap Z (option Z)) (acc : Z * Q) (q : Question) : Z * Q :=
  match answers !! q_id q with
  | Some (Some answer_val) =>
      let normalized := (inject_Z (6 - answer_val) / 5)%Q in
      let weight := weight_of q in
      (fst acc + weight, (snd acc + normalized * inject_Z weight)%Q)
  | _ => acc
  end.

Definition calc_vulnerability (answers : gmap Z (option Z)) (questions : list Question)
    (osint_results : option OsintResults) : Z :=
  if bool_decide (answers = ∅) then 100
  else
    let acc := fold_left (vuln_step answers) questions (0, 0%Q) in
    let total_weight := fst acc in
    let weighted_score := snd acc in
    if total_weight =? 0 then 100
    else
      let vuln := (weighted_score / inject_Z total_weight * 100)%Q in
      py_round (osint_floor osint_results vuln).

(** One iteration of the loop of lines 60-64 on [total_score]. *)
Definition cloud_step (scores : gmap Z Z) (total_score : Q) (c : Criterion) : Q :=
  let maturity_score := default 0 (scores !! c_id c) in
  let points := default 0%Q (c_points c) in
  let weighted_points := (inject_Z maturity_score / 5 * points)%Q in
  (total_score + weighted_points)%Q.

Definition cloud_total_score (scores : gmap Z Z) (criteria : list Criterion) : Q :=
  fold_left (cloud_step scores) criteria 0%Q.

(** Lines 69-73: the [any(...)] over the criteria. *)
Definition cloud_missed_critical (scores : gmap Z Z) (criteria : list Criterion) : bool :=
  existsb (fun c =>
             bool_decide (c_criticality c = Some "Critical"%string)
             && (bool_decide (scores !! c_id c = Some 0)
                 || bool_decide (scores !! c_id c = None)))
          criteria.

Definition calc_cloud_vulnerability (scores : gmap Z Z) (criteria : list Criterion)
    (osint_results : option OsintResults) : CloudResult :=
  let total_score := cloud_total_score scores criteria in
  let max_score := 55 in
  let missed_critical := cloud_missed_critical scores criteria in
  let vuln :=
    if 0 <? max_score
    then py_round ((1 - total_score / inject_Z max_score) * 100)%Q
    else 100 in
  let vuln := osint_floor_int osint_results vuln in
  let '(status, status_color) :=
    if missed_critical || Qlt_bool total_score 15
    then ("REJECT (Critical Risk)", "red")
    else if Qlt_bool total_score 30
    then ("Restricted (Deficient)", "amber")
    else if Qlt_bool total_score 45
    then ("Standard Approval", "yellow")
    else ("Elite (Pre-approved)", "green") in
  {| score := py_round total_score;
     maxScore := max_score;
     vulnerability := vuln;
     status := status;
     statusColor := status_color;
     missedCritical := missed_critical |}.

(** Line 127: [[v for v in answers.values() if v is not None]]. *)
Definition answer_vals (answers : gmap Z (option Z)) : list Z :=
  omap id (map_to_list answers).*2.

(** Lines 131-132: [max(1, min(5, 6 - avg_score / 1.2))]. *)
Definition maturity_to_risk (avg_score : Q) : Q :=
  Qmax 1 (Qmin 5 (6 - avg_score / (12 # 10))).

Definition calc_impact_likelihood (answers : gmap Z (option Z)) (questions : list Question)
    (osint_results : option OsintResults) : Q * Q :=
  let '(impact, likelihood) :=
    if bool_decide (answers = ∅) then (3%Q, 3%Q)
    else
      match answer_vals answers with
      | [] => (3%Q, 3%Q)
      | (_ :: _) as vals =>
          let avg_score := (inject_Z (py_sum vals) / inject_Z (Z.of_nat (length vals)))%Q in
          (maturity_to_risk avg_score, maturity_to_risk avg_score)
      end in
  let likelihood := if ransomware_hit osint_results then 5%Q else likelihood in
  (impact, likelihood).

(** ** risk_calculator.py on binary64 floats *)

(** The three calculators once more, with every float operation of the
    source rounded as IEEE 754 binary64 rounds it.  This is the model for
    what depends on the exact double: the side of a threshold a sum falls
    on, the integer a value is rounded to, an overflow. *)
Module Double.

(** A Python [float].  A finite value is the rational number it stands
    for; the sign of a zero is not kept, since nothing in the calculators
    can tell the two zeros apart (no division by a zero goes through, and
    no zero is printed). *)
Inductive float :=
| Finite (x : Q)
| Infinity (negative : bool)
| NaN.

(** [2 ** e] for an integer [e] of either sign. *)
Definition pow2 (e : Z) : Q :=
  match e with
  | Zneg p => 1 # 2 ^ p
  | _ => inject_Z (2 ^ e)
  end.

(** The integer part of [log2 x], for [0 < x]: the difference of the bit
    lengths of numerator and denominator, or one less. *)
Definition ilog2 (x : Q) : Z :=
  let k := Z.log2 (Qnum x) - Z.log2 (Zpos (Qden x)) in
  if Qle_bool (pow2 k) x then k else k - 1.

(** The exponent of the last place at which [x] is rounded: 53
    significant bits, and no exponent below the subnormal [-1074]. *)
Definition exponent (x : Q) : Z := Z.max (ilog2 (Qabs x) - 52) (-1074).

(** Rounding to the nearest double, a tie going to the even significand
    ([py_round] is that rounding on the scaled value), and infinity from
    [2 ** 1024] on. *)
Definition round_to_double (x : Q) : float :=
  if Qeq_bool x 0 then Finite 0
  else
    let y := (inject_Z (py_round (x / pow2 (exponent x))) * pow2 (exponent x))%Q in
    if Qle_bool (pow2 1024) (Qabs y) then Infinity (Qlt_bool x 0)
    else Finite (Qred y).


(** [a + b], [a - b], [a * b] on floats. *)
Definition add (a b : float) : float :=
  match a, b with
  | Finite x, Finite y => round_to_double (x + y)
  | Finite _, Infinity s | Infinity s, Finite _ => Infinity s
  | Infinity s, Infinity t => if Bool.eqb s t then Infinity s else NaN
  | _, _ => NaN
  end.

Definition neg (a : float) : float :=
  match a with
  | Finite x => Finite (- x)
  | Infinity s => Infinity (negb s)
  | NaN => NaN
  end.

Definition sub (a b : float) : float := add a (neg b).

Definition mul (a b : float) : float :=
  match a, b with
  | Finite x, Finite y => round_to_double (x * y)
  | Finite x, Infinity s | Infinity s, Finite x =>
      if Qeq_bool x 0 then NaN else Infinity (xorb s (Qlt_bool x 0))
  | Infinity s, Infinity t => Infinity (xorb s t)
  | _, _ => NaN
  end.

(** [a / b] on floats; [None] is the [ZeroDivisionError]. *)
Definition div (a b : float) : option float :=
  match a, b with
  | Finite x, Finite y =>
      if Qeq_bool y 0 then None else Some (round_to_double (x / y))
  | Infinity s, Finite y =>
      if Qeq_bool y 0 then None else Some (Infinity (xorb s (Qlt_bool y 0)))
  | NaN, Finite y => if Qeq_bool y 0 then None else Some NaN
  | Finite _, Infinity _ => Some (Finite 0)
  | _, _ => Some NaN
  end.

(** [a < b] *)
Definition lt (a b : float) : bool :=
  match a, b with
  | Finite x, Finite y => Qlt_bool x y
  | Finite _, Infinity s => negb s
  | Infinity s, Finite _ => s
  | Infinity s, Infinity t => s && negb t
  | _, _ => false
  end.

(** The conversion of an [int] operand that meets a float; [None] is the
    [OverflowError] of an integer too large for a float. *)
Definition of_int (n : Z) : option float :=
  match round_to_double (inject_Z n) with
  | Finite x => Some (Finite x)
  | _ => None
  end.

(** [a / b] on two [int]s: the quotient, correctly rounded; [None] is a
    [ZeroDivisionError] or the [OverflowError] of a quotient too large. *)
Definition int_truediv (a b : Z) : option float :=
  if b =? 0 then None
  else
    match round_to_double (inject_Z a / inject_Z b) with
    | Finite x => Some (Finite x)
    | _ => None
    end.

(** A number read from JSON, or a float literal of the source: the double
    nearest to what is written; [None] for a magnitude no double has
    (an [int] that size cannot be converted, and a float that size is
    infinite, which no calculation here survives). *)
Definition of_number (q : Q) : option float :=
  match round_to_double q with
  | Finite x => Some (Finite x)
  | _ => None
  end.

(** [round(a)]; [None] is the [OverflowError] for an infinity or the
    [ValueError] for a NaN. *)
Definition round (a : float) : option Z :=
  match a with
  | Finite x => Some (py_round x)
  | _ => None
  end.

(** [max(a, n)] and [min(n, a)] for an integer [n]: the other argument
    replaces the first only when it is strictly larger, resp. smaller. *)
Definition max_int (a : float) (n : Z) : float :=
  if lt a (Finite (inject_Z n)) then Finite (inject_Z n) else a.

Definition int_max (n : Z) (a : float) : float :=
  if lt (Finite (inject_Z n)) a then a else Finite (inject_Z n).

Definition int_min (n : Z) (a : float) : float :=
  if lt a (Finite (inject_Z n)) then a else Finite (inject_Z n).

(** Lines 42-48. *)
Definition osint_floor (osint_results : option OsintResults) (vuln : float) : float :=
  match osint_results with
  | Some o =>
      let vuln := if ssl_failing o then max_int vuln 80 else vuln in
      if dmarc_missing o then max_int vuln 60 else vuln
  | None => vuln
  end.

(** One iteration of the loop of lines 22-32; [None] once an operation
    has raised. *)
Definition vuln_step (answers : gmap Z (option Z)) (acc : option (Z * float))
    (q : Question) : option (Z * float) :=
  '(total_weight, weighted_score) ← acc;
  match answers !! q_id q with
  | Some (Some answer_val) =>
      normalized ← int_truediv (6 - answer_val) 5;
      let weight := weight_of q in
      weight' ← of_int weight;
      Some (total_weight + weight, add weighted_score (mul normalized weight'))
  | _ => Some (total_weight, weighted_score)
  end.

Definition calc_vulnerability (answers : gmap Z (option Z)) (questions : list Question)
    (osint_results : option OsintResults) : option Z :=
  if bool_decide (answers = ∅) then Some 100
  else
    '(total_weight, weighted_score) ←
      fold_left (vuln_step answers) questions (Some (0, Finite 0));
    if total_weight =? 0 then Some 100
    else
      total_weight' ← of_int total_weight;
      mean ← div weighted_score total_weight';
      let vuln := mul mean (Finite 100) in
      round (osint_floor osint_results vuln).

(** One iteration of the loop of lines 60-64. *)
Definition cloud_step (scores : gmap Z Z) (total_score : option float) (c : Criterion)
    : option float :=
  total_score ← total_score;
  let maturity_score := default 0 (scores !! c_id c) in
  level ← int_truediv maturity_score 5;
  points ← of_number (default 0%Q (c_points c));
  Some (add total_score (mul level points)).

Definition cloud_total_score (scores : gmap Z Z) (criteria : list Criterion)
    : option float :=
  fold_left (cloud_step scores) criteria (Some (Finite 0)).

Definition calc_cloud_vulnerability (scores : gmap Z Z) (criteria : list Criterion)
    (osint_results : option OsintResults) : option CloudResult :=
  total_score ← cloud_total_score scores criteria;
  let max_score := 55 in
  let missed_critical := cloud_missed_critical scores criteria in
  vuln ←
    (if 0 <? max_score
     then
       max_score' ← of_int max_score;
       share ← div total_score max_score';
       round (mul (sub (Finite 1) share) (Finite 100))
     else Some 100);
  let vuln := osint_floor_int osint_results vuln in
  let '(status, status_color) :=
    if missed_critical || lt total_score (Finite 15)
    then ("REJECT (Critical Risk)", "red")
    else if lt total_score (Finite 30)
    then ("Restricted (Deficient)", "amber")
    else if lt total_score (Finite 45)
    then ("Standard Approval", "yellow")
    else ("Elite (Pre-approved)", "green") in
  score ← round total_score;
  Some {| score := score;
          maxScore := max_score;
          vulnerability := vuln;
          status := status;
          statusColor := status_color;
          missedCritical := missed_critical |}.

(** Lines 131-132: [max(1, min(5, 6 - avg_score / 1.2))]. *)
Definition maturity_to_risk (avg_score : float) : option float :=
  divisor ← of_number (12 # 10);
  quotient ← div avg_score divisor;
  Some (int_max 1 (int_min 5 (sub (Finite 6) quotient))).

Definition calc_impact_likelihood (answers : gmap Z (option Z)) (questions : list Question)
    (osint_results : option OsintResults) : option (float * float) :=
  '(impact, likelihood) ←
    (if bool_decide (answers = ∅) then Some (Finite 3, Finite 3)
     else
       match answer_vals answers with
       | [] => Some (Finite 3, Finite 3)
       | (_ :: _) as vals =>
           avg_score ← int_truediv (py_sum vals) (Z.of_nat (length vals));
           risk ← maturity_to_risk avg_score;
           Some (risk, risk)
       end);
  let likelihood := if ransomware_hit osint_results then Finite 5 else likelihood in
  Some (impact, likelihood).

End Double.

(** *** The Standard Library's IEEE 754 specification, for comparison *)

(** A float of [SpecFloat], the executable specification of binary64
    arithmetic that the Standard Library states its primitive floats
    against, read as a float of the model above. *)
Definition of_spec (f : SpecFloat.spec_float) : Double.float :=
  match f with
  | SpecFloat.S754_zero _ => Double.Finite 0
  | SpecFloat.S754_infinity s => Double.Infinity s
  | SpecFloat.S754_nan => Double.NaN
  | SpecFloat.S754_finite s m e =>
      Double.Finite (Qred ((if s then -1 else 1) * inject_Z (Zpos m) * Double.pow2 e))
  end.

(** The double nearest to [m * 2 ** e], by [SpecFloat]. *)
Definition spec_double (m e : Z) : SpecFloat.spec_float :=
  SpecFloat.binary_normalize 53 1024 m e false.

Definition same_float (a b : Double.float) : bool :=
  match a, b with
  | Double.Finite x, Double.Finite y => (Qnum x =? Qnum y) && (Qden x =? Qden y)%positive
  | Double.Infinity s, Double.Infinity t => Bool.eqb s t
  | Double.NaN, Double.NaN => true
  | _, _ => false
  end.

(** Sum, product and quotient of two doubles come out the same by
    [SpecFloat] and by the model; a quotient by zero, which [SpecFloat]
    gives a value, is the model's [ZeroDivisionError]. *)
Definition operations_agree (a b : SpecFloat.spec_float) : bool :=
  same_float (of_spec (SpecFloat.SFadd 53 1024 a b)) (Double.add (of_spec a) (of_spec b))
  && same_float (of_spec (SpecFloat.SFmul 53 1024 a b)) (Double.mul (of_spec a) (of_spec b))
  && match Double.div (of_spec a) (of_spec b) with
     | Some q => same_float (of_spec (SpecFloat.SFdiv 53 1024 a b)) q
     | None => match b with SpecFloat.S754_zero _ => true | _ => false end
     end.

(** Doubles of every kind: zero, small integers, the least subnormal and
    the least normal double, the largest double of either sign, 1.2, 0.2
    and 14.399999999999999, [2 ** 1023], a subnormal with a full
    significand, a value below half the least subnormal, [10 ** 20], a
    negative fraction, the infinities and NaN. *)
Definition sample_doubles : list SpecFloat.spec_float :=
  [spec_double 0 0; spec_double 3 0; spec_double 5 0; spec_double (-24) 0;
   spec_double 1 (-1074); spec_double 1 (-1022);
   spec_double (2 ^ 53 - 1) 971; spec_double (- (2 ^ 53 - 1)) 971;
   spec_double 5404319552844595 (-52); spec_double 3602879701896397 (-54);
   spec_double 8106479329266893 (-49); spec_double 1 1023;
   spec_double (2 ^ 52 + 1) (-1074); spec_double 7 (-1080);
   spec_double (10 ^ 20) 0; spec_double (-1) (-30);
   SpecFloat.S754_infinity false; SpecFloat.S754_infinity true; SpecFloat.S754_nan].

(** ** osint_service.py *)

(** *** Python strings (ASCII) *)

(** [c.isspace()] for an ASCII character: tab, line feed, vertical tab,
    form feed, carriage return, the four separators 0x1c-0x1f and space. *)
Definition py_isspace (c : ascii) : bool :=
  let n := nat_of_ascii c in
  ((9 <=? n) && (n <=? 13) || (28 <=? n) && (n <=? 32))%nat.

(** [not domain or not domain.strip()]: nothing is left after stripping. *)
Fixpoint blank (s : string) : bool :=
  match s with
  | EmptyString => true
  | String c rest => py_isspace c && blank rest
  end.

Definition lower_char (c : ascii) : ascii :=
  let n := nat_of_ascii c in
  if ((65 <=? n) && (n <=? 90))%nat then ascii_of_nat (n + 32) else c.

(** [s.lower()] *)
Fixpoint lower (s : string) : string :=
  match s with
  | EmptyString => EmptyString
  | String c rest => String (lower_char c) (lower rest)
  end.

(** [s.startswith(p)] *)
Definition startswith (s p : string) : bool := String.prefix p s.

(** [needle in hay] *)
Fixpoint contains (needle hay : string) : bool :=
  String.prefix needle hay
  || match hay with
     | EmptyString => false
     | String _ rest => contains needle rest
     end.

(** [''.join(parts)] *)
Definition join (parts : list string) : string := String.concat "" parts.

(** *** Python bytes *)

Abbreviation bytes := (list Byte.byte).

(** A hexadecimal digit, in lower case. *)
Definition hex_digit (n : nat) : ascii :=
  ascii_of_nat (if (n <? 10)%nat then 48 + n else 87 + n).

(** The quote [repr] puts around a [bytes] object: the single quote, or the
    double quote when the object holds a single quote and no double one. *)
Definition bytes_quote (b : bytes) : Byte.byte :=
  if existsb (Byte.eqb "'"%byte) b && negb (existsb (Byte.eqb Byte.x22) b)
  then Byte.x22 else "'"%byte.

(** One byte inside the quotes: the quote and the backslash are escaped,
    tab, line feed and carriage return have their letters, and any other
    byte outside the printable ASCII range is written [\xhh]. *)
Definition repr_byte (quote c : Byte.byte) : string :=
  let n := Byte.to_nat c in
  if Byte.eqb c quote || Byte.eqb c "\"%byte
  then String "\" (String (ascii_of_byte c) "")
  else if (n =? 9)%nat then "\t"
  else if (n =? 10)%nat then "\n"
  else if (n =? 13)%nat then "\r"
  else if (n <? 32)%nat || (127 <=? n)%nat
  then "\x" +:+ String (hex_digit (n / 16)) (String (hex_digit (n mod 16)) "")
  else String (ascii_of_byte c) "".

(** [str(b)] for a [bytes] object [b]: its [repr], the letter [b] followed
    by the quoted, escaped content. *)
Definition str_bytes (b : bytes) : string :=
  let quote := bytes_quote b in
  String "b" (String (ascii_of_byte quote)
                (String.concat "" (map (repr_byte quote) b)
                 +:+ String (ascii_of_byte quote) "")).

(** *** The shared in-memory cache *)

(** The two result dictionaries, which are also the values kept in
    [_cache]: [{'valid', 'daysRemaining', 'grade'}] and
    [{'has_dmarc', 'policy', 'domain'}]. *)
Inductive Result :=
| SslStats (valid : bool) (daysRemaining : Z) (grade : string)
| DmarcInfo (has_dmarc : bool) (policy : option string) (domain : string).

(** What the outside world answers during one call.  The resolver is
    dnspython, which is not part of the repository: a TXT record keeps its
    character-strings in [record.strings], a tuple of [bytes] objects. *)
Inductive CertProbe :=
| ProbeError                       (* an exception inside the [try]: connect, handshake, [strptime] *)
| ProbeNoExpiry                    (* [cert.get('notAfter')] is missing or empty *)
| ProbeDays (days_remaining : Z).  (* [(exp_date - datetime.now()).days] *)

Inductive DnsAnswer :=
| DnsError                                   (* an exception inside the [try] *)
| DnsRecords (records : list (list bytes)).  (* per record, [record.strings] *)

Record Env := mkEnv {
  clock_get : Q;                      (* [time.time()] read by [_get_cache] *)
  clock_set : Q;                      (* [time.time()] read by [_set_cache] *)
  tls_probe : string -> CertProbe;    (* TLS connection to [(domain, 443)] *)
  dns_resolve : string -> DnsAnswer   (* [dns.resolver.resolve(name, 'TXT')] *)
}.

(** [_cache : Dict[str, tuple]], key -> (value, timestamp). *)
Abbreviation Cache := (gmap string (Result * Q)).

Definition _get_cache (key : string) (ttl_seconds : Q) (now : Q) (cache : Cache)
    : option Result * Cache :=
  match cache !! key with
  | Some (val, timestamp) =>
      if Qlt_bool (now - timestamp) ttl_seconds then (Some val, cache)
      else (None, delete key cache)
  | None => (None, cache)
  end.

Definition _set_cache (key : string) (value : Result) (now : Q) (cache : Cache) : Cache :=
  <[key := (value, now)]> cache.

(** *** check_dmarc *)

(** Lines 130-136. *)
Definition extract_policy (txt : string) : string :=
  let policy := "none"%string in
  if contains "p=reject" (lower txt) then "reject"%string
  else if contains "p=quarantine" (lower txt) then "quarantine"%string
  else if contains "p=none" (lower txt) then "none"%string
  else policy.

(** The [for record in records] loop: the first record whose joined text
    starts with [v=dmarc1] once lower-cased decides.  The text is joined
    from [str(r)] of each [bytes] object [r]. *)
Fixpoint scan_records (domain : string) (records : list (list bytes)) : option Result :=
  match records with
  | [] => None
  | record :: rest =>
      let txt := join (map str_bytes record) in
      if startswith (lower txt) "v=dmarc1"
      then Some (DmarcInfo true (Some (extract_policy txt)) domain)
      else scan_records domain rest
  end.

Definition check_dmarc (env : Env) (domain : string) (cache : Cache) : Result * Cache :=
  if blank domain then (DmarcInfo false None domain, cache)
  else
    let cache_key := ("dmarc_" +:+ domain)%string in
    let '(cached, cache) := _get_cache cache_key 300 (clock_get env) cache in
    match cached with
    | Some r => (r, cache)
    | None =>
        let result :=
          match dns_resolve env ("_dmarc." +:+ domain) with
          | DnsRecords records =>
              match scan_records domain records with
              | Some r => r
              | None => DmarcInfo false None domain
              end
          | DnsError => DmarcInfo false None domain
          end in
        (result, _set_cache cache_key result (clock_set env) cache)
    end.

(** *** get_certificate_stats *)

Definition get_certificate_stats (env : Env) (domain : string) (cache : Cache)
    : Result * Cache :=
  if blank domain then (SslStats false 0 "F", cache)
  else
    let cache_key := ("ssl_" +:+ domain)%string in
    let '(cached, cache) := _get_cache cache_key 300 (clock_get env) cache in
    match cached with
    | Some r => (r, cache)
    | None =>
        let result :=
          match tls_probe env domain with
          | ProbeDays days_remaining =>
              let grade :=
                if days_remaining <? 0 then "F"%string
                else if days_remaining <? 7 then "F"%string
                else if days_remaining <? 30 then "C"%string
                else if days_remaining <? 60 then "B"%string
                else "A"%string in
              SslStats (0 <? days_remaining) days_remaining grade
          | ProbeNoExpiry | ProbeError => SslStats false 0 "F"
          end in
        (result, _set_cache cache_key result (clock_set env) cache)
    end.

(** The module starts with an empty [_cache]; only the two checks touch it. *)
Inductive reachable : Cache -> Prop :=
| reach_init : reachable ∅
| reach_ssl env domain cache :
    reachable cache -> reachable (snd (get_certificate_stats env domain cache))
| reach_dmarc env domain cache :
    reachable cache -> reachable (snd (check_dmarc env domain cache)).

(** *** More Python strings *)

(** Truth value of a string: [if s]. *)
Definition truthy (s : string) : bool :=
  match s with
  | EmptyString => false
  | String _ _ => true
  end.

(** [s.lstrip()], [s.rstrip()] and [s.strip()]. *)
Fixpoint lstrip (s : string) : string :=
  match s with
  | EmptyString => EmptyString
  | String c rest => if py_isspace c then lstrip rest else s
  end.

Fixpoint rstrip (s : string) : string :=
  match s with
  | EmptyString => EmptyString
  | String c rest =>
      match rstrip rest with
      | EmptyString => if py_isspace c then EmptyString else String c EmptyString
      | kept => String c kept
      end
  end.

Definition strip (s : string) : string := rstrip (lstrip s).

(** [s.split()]: the maximal runs of non-blank characters; [word] is the
    run being read. *)
Fixpoint split_words_from (word : string) (s : string) : list string :=
  match s with
  | EmptyString => if truthy word then [word] else []
  | String c rest =>
      if py_isspace c
      then (if truthy word then word :: split_words_from "" rest
            else split_words_from "" rest)
      else split_words_from (word +:+ String c "") rest
  end.

Definition split_words (s : string) : list string := split_words_from "" s.

(** [s.split(',')]: the pieces between commas, empty ones included. *)
Fixpoint split_commas_from (piece : string) (s : string) : list string :=
  match s with
  | EmptyString => [piece]
  | String c rest =>
      if Ascii.eqb c ","
      then piece :: split_commas_from "" rest
      else split_commas_from (piece +:+ String c "") rest
  end.

Definition split_commas (s : string) : list string := split_commas_from "" s.

(** [s.replace(' ', '')] *)
Fixpoint remove_spaces (s : string) : string :=
  match s with
  | EmptyString => EmptyString
  | String c rest =>
      if Ascii.eqb c " " then remove_spaces rest else String c (remove_spaces rest)
  end.

(** [str(n)] for an integer. *)
Definition str_int (n : Z) : string := NilZero.string_of_int (Z.to_int n).

(** *** check_vendor_ransomware *)

(** An element of the leak list: a dictionary with its [post_title] (absent
    or null when [None]), or anything on which
    [(post.get('post_title') or '').lower()] raises. *)
Inductive Post :=
| PostTitle (post_title : option string)
| PostMalformed.

(** Lines 92-107: the loop over the posts; an exception ends it with
    [False] (line 110). *)
Fixpoint search_posts (name domain : string) (list_data : list Post) : bool :=
  match list_data with
  | [] => false
  | PostMalformed :: _ => false
  | PostTitle post_title :: rest =>
      let title := lower (default ""%string post_title) in
      if truthy name && contains name title then true
      else if truthy domain && contains domain title then true
      else
        let words := filter (fun w => (3 <? String.length w)%nat) (split_words name) in
        if existsb (fun word => contains word title) words then true
        else search_posts name domain rest
  end.

(** [list_data] is what [fetch_ransomware_list()] returned. *)
Definition check_vendor_ransomware (list_data : list Post)
    (vendor_name vendor_domain : string) : bool :=
  if negb (truthy vendor_name) && negb (truthy vendor_domain) then false
  else
    match list_data with
    | [] => false
    | _ =>
        let name := strip (lower vendor_name) in
        let domain := strip (lower vendor_domain) in
        if negb (truthy name) && negb (truthy domain) then false
        else search_posts name domain list_data
    end.

(** *** scan_vendor *)

(** A warning record; a field is [None] when the key is absent. *)
Record Warning := mkWarning {
  w_type : option string;
  w_severity : option string;
  w_message : option string;
  w_source : option string;
  w_checked_domains : option string
}.

(** What the outside world answers during one scan: the leak list, and the
    environment of the certificate check and of the [i]-th DMARC check. *)
Record World := mkWorld {
  leak_list : list Post;
  ssl_env : Env;
  dmarc_env : nat -> Env
}.

(** Reading a key of a result raises [KeyError] ([None]) when the
    dictionary is of the other kind. *)
Definition has_dmarc_of (r : Result) : option bool :=
  match r with
  | DmarcInfo has_dmarc _ _ => Some has_dmarc
  | SslStats _ _ _ => None
  end.

Definition domain_of (r : Result) : option string :=
  match r with
  | DmarcInfo _ _ domain => Some domain
  | SslStats _ _ _ => None
  end.

(** [any(r['has_dmarc'] for r in results)] and [all(...)], which stop at
    the first deciding element. *)
Fixpoint any_has_dmarc (results : list Result) : option bool :=
  match results with
  | [] => Some false
  | r :: rest => h ← has_dmarc_of r; if h : bool then Some true else any_has_dmarc rest
  end.

Fixpoint all_have_dmarc (results : list Result) : option bool :=
  match results with
  | [] => Some true
  | r :: rest => h ← has_dmarc_of r; if h : bool then all_have_dmarc rest else Some false
  end.

(** [[r['domain'] for r in results]] and
    [[r['domain'] for r in results if not r['has_dmarc']]]. *)
Fixpoint domains_of (results : list Result) : option (list string) :=
  match results with
  | [] => Some []
  | r :: rest => d ← domain_of r; ds ← domains_of rest; Some (d :: ds)
  end.

Fixpoint missing_domains (results : list Result) : option (list string) :=
  match results with
  | [] => Some []
  | r :: rest =>
      h ← has_dmarc_of r;
      if h : bool then missing_domains rest
      else d ← domain_of r; ds ← missing_domains rest; Some (d :: ds)
  end.

(** Lines 257-260: one [check_dmarc] per subdomain, the [i]-th in its own
    environment. *)
Fixpoint check_subdomains (world : World) (i : nat) (subdomains : list string)
    (cache : Cache) : list Result * Cache :=
  match subdomains with
  | [] => ([], cache)
  | subdomain :: rest =>
      let '(result, cache) := check_dmarc (dmarc_env world i) subdomain cache in
      let '(results, cache) := check_subdomains world (S i) rest cache in
      (result :: results, cache)
  end.

Definition ransomware_warning (vendor_name : string) : Warning :=
  mkWarning (Some "ransomware"%string) (Some "Critical"%string)
    (Some ("Vendor " +:+ String "034" vendor_name
           +:+ String "034" " found in ransomware leak database")%string)
    (Some "Ransomwatch GitHub"%string) None.

Definition ssl_warning (severity message : string) : Warning :=
  mkWarning (Some "ssl"%string) (Some severity) (Some message)
    (Some "Certificate validation"%string) None.

Definition dmarc_warning (severity message checked_domains : string) : Warning :=
  mkWarning (Some "dmarc"%string) (Some severity) (Some message)
    (Some "DNS TXT record check"%string) (Some checked_domains).

(** Lines 216-226: the ransomware check. *)
Definition scan_ransomware (world : World) (vendor_name primary_domain : string)
    : list Warning * option bool :=
  if truthy vendor_name || truthy primary_domain then
    let found := check_vendor_ransomware (leak_list world) vendor_name primary_domain in
    (if found then [ransomware_warning vendor_name] else [], Some found)
  else ([], None).

(** Lines 229-247: the certificate check. *)
Definition scan_ssl (world : World) (primary_domain : string) (cache : Cache)
    : option (list Warning * option string * Cache) :=
  if truthy primary_domain then
    let '(ssl_stats, cache) := get_certificate_stats (ssl_env world) primary_domain cache in
    match ssl_stats with
    | SslStats _ daysRemaining grade =>
        let warnings :=
          if String.eqb grade "F" then
            [ssl_warning "High"
               ("SSL certificate expired or expiring soon (" +:+ str_int daysRemaining
                +:+ " days)")]
          else if String.eqb grade "C" then
            [ssl_warning "Medium"
               ("SSL certificate expiring in " +:+ str_int daysRemaining +:+ " days")]
          else [] in
        Some (warnings, Some grade, cache)
    | DmarcInfo _ _ _ => None
    end
  else Some ([], None, cache).

(** Lines 250-302: the DMARC checks, on the subdomains when some are
    given, on the primary domain otherwise. *)
Definition scan_dmarc (world : World) (primary_domain : string)
    (osint_urls : gmap string string) (cache : Cache)
    : option (list Warning * option bool * Cache) :=
  let dmarc_subdomains := default ""%string (osint_urls !! "dmarc_subdomains"%string) in
  if truthy dmarc_subdomains then
    let subdomains := filter (fun s => truthy s) (map strip (split_commas dmarc_subdomains)) in
    let '(dmarc_results, cache) := check_subdomains world 0 subdomains cache in
    has_any_dmarc ← any_has_dmarc dmarc_results;
    all_have_dmarc ← all_have_dmarc dmarc_results;
    warnings ←
      (if negb has_any_dmarc then
         domains ← domains_of dmarc_results;
         let checked_domains := String.concat ", " domains in
         Some [dmarc_warning "Medium"
                 ("No DMARC record found on specified email subdomains ("
                  +:+ checked_domains +:+ ")")
                 checked_domains]
       else if negb all_have_dmarc then
         missing ← missing_domains dmarc_results;
         domains ← domains_of dmarc_results;
         Some [dmarc_warning "Low"
                 ("Some email subdomains missing DMARC: " +:+ String.concat ", " missing)
                 (String.concat ", " domains)]
       else Some []);
    Some (warnings, Some has_any_dmarc, cache)
  else if truthy primary_domain then
    let '(result, cache) := check_dmarc (dmarc_env world 0) primary_domain cache in
    has_dmarc ← has_dmarc_of result;
    Some (if has_dmarc : bool then []
          else [dmarc_warning "Medium"
                  ("No DMARC record found on primary domain (" +:+ primary_domain
                   +:+ "). Consider specifying email subdomains if emails are sent from subdomains.")
                  primary_domain],
          Some has_dmarc, cache)
  else Some ([], None, cache).

(** The scan: warnings in the order ransomware, certificate, DMARC, the
    [osintResults] dictionary and the cache left behind; [None] when a
    [KeyError] escapes. *)
Definition scan_vendor (world : World) (primary_domain : string)
    (osint_urls : gmap string string) (cache : Cache)
    : option (list Warning * OsintResults * Cache) :=
  let vendor_name := default ""%string (osint_urls !! "vendor_name"%string) in
  let '(w_ransomware, found) := scan_ransomware world vendor_name primary_domain in
  '(w_ssl, grade, cache) ← scan_ssl world primary_domain cache;
  '(w_dmarc, has_dmarc, cache) ← scan_dmarc world primary_domain osint_urls cache;
  Some (w_ransomware ++ w_ssl ++ w_dmarc, mkOsint found grade has_dmarc, cache).

(** ** main.py *)

(** *** get_vendors: the OSINT results read back from stored warnings *)

(** [next((w for w in warnings if w.get('type') == t), None)] *)
Definition first_warning (t : string) (warnings : list Warning) : option Warning :=
  find (fun w => bool_decide (w_type w = Some t)) warnings.

(** Lines 131-153. *)
Definition osint_from_warnings (warnings : list Warning) : option OsintResults :=
  match warnings with
  | [] => None
  | _ =>
      let ransomware_warn := first_warning "ransomware" warnings in
      let ssl_warn := first_warning "ssl" warnings in
      let dmarc_warn := first_warning "dmarc" warnings in
      if bool_decide (is_Some ransomware_warn) || bool_decide (is_Some ssl_warn)
         || bool_decide (is_Some dmarc_warn)
      then
        let ssl_grade :=
          match ssl_warn with
          | Some w =>
              let msg := default ""%string (w_message w) in
              if contains "expired" (lower msg) then Some "F"%string
              else if bool_decide (w_severity w = Some "High"%string) then Some "C"%string
              else Some "B"%string
          | None => None
          end in
        Some (mkOsint (Some (bool_decide (is_Some ransomware_warn)))
                      ssl_grade
                      (Some (bool_decide (dmarc_warn = None))))
      else None
  end.

(** *** calculate_assessment *)

Record AssessmentCalculate := mkAssessment {
  assessment_type : string;
  req_answers : option (gmap Z (option Z));
  req_cloudScores : option (gmap Z Z);
  req_questions : option (list Question);
  req_criteria : option (list Criterion);
  req_osintResults : option OsintResults
}.

Inductive AssessmentResponse :=
| StandardRisk (vulnerability : Z) (impact likelihood : Q)
| CloudRisk (vulnerability impact likelihood : Z) (result : CloudResult)
| InvalidAssessment.   (* HTTPException 400, 'Invalid assessment data' *)

(** Lines 372-374: the level read off the rounded score. *)
Definition cloud_level (score : Z) : Z :=
  if score <? 15 then 5 else if score <? 30 then 4 else if score <? 45 then 3 else 2.

(** Truth value of an optional dictionary: present and not empty. *)
Definition nonempty_dict {A} (m : option (gmap Z A)) : bool :=
  match m with
  | Some m => negb (bool_decide (m = ∅))
  | None => false
  end.

Definition calculate_assessment (req : AssessmentCalculate) : AssessmentResponse :=
  if String.eqb (assessment_type req) "standard" && nonempty_dict (req_answers req) then
    let answers := default ∅ (req_answers req) in
    let questions := default [] (req_questions req) in
    let vuln := calc_vulnerability answers questions (req_osintResults req) in
    let '(impact, likelihood) :=
      calc_impact_likelihood answers questions (req_osintResults req) in
    StandardRisk vuln impact likelihood
  else if String.eqb (assessment_type req) "cloud" && nonempty_dict (req_cloudScores req) then
    let cloudScores := default ∅ (req_cloudScores req) in
    let result :=
      calc_cloud_vulnerability cloudScores (default [] (req_criteria req))
        (req_osintResults req) in
    let impact := cloud_level (score result) in
    let likelihood := cloud_level (score result) in
    let likelihood := if ransomware_hit (req_osintResults req) then 5 else likelihood in
    CloudRisk (vulnerability result) impact likelihood result
  else InvalidAssessment.

(** *** scan_osint *)

(** The columns of the vendor row the scan reads; [osint_urls] is the
    stored JSON, parsed, or the empty dictionary. *)
Record VendorRow := mkVendorRow {
  v_name : string;
  v_osint_urls : gmap string string;
  v_vulnerability : Z
}.

Inductive ScanResponse :=
| VendorNotFound        (* HTTPException 404 *)
| NoDomain              (* HTTPException 400 *)
| ScanFailed            (* an exception out of [scan_vendor] *)
| ScanDone (warnings : list Warning) (osintResults : OsintResults)
           (new_vuln : Z) (cache : Cache).

(** Lines 414-420: the domain to scan. *)
Definition scan_domain (vendor : VendorRow) : option string :=
  let primary_domain := default ""%string (v_osint_urls vendor !! "primary_domain"%string) in
  if truthy primary_domain then Some primary_domain
  else if truthy (v_name vendor)
  then Some (remove_spaces (lower (v_name vendor)) +:+ ".com")%string
  else None.

(** Lines 435-442: the vulnerability written back after a scan; the
    [osintResults] of a scan always has its three keys. *)
Definition knockout (stored : Z) (osintResults : OsintResults) : Z :=
  let new_vuln := if stored =? 0 then 100 else stored in
  if bool_decide (ransomware osintResults = Some true) then 100
  else if ssl_failing osintResults then Z.max new_vuln 80
  else new_vuln.

Definition scan_osint (world : World) (vendor_row : option VendorRow) (cache : Cache)
    : ScanResponse :=
  match vendor_row with
  | None => VendorNotFound
  | Some vendor =>
      match scan_domain vendor with
      | None => NoDomain
      | Some primary_domain =>
          let osint_urls := <["vendor_name"%string := v_name vendor]> (v_osint_urls vendor) in
          match scan_vendor world primary_domain osint_urls cache with
          | None => ScanFailed
          | Some (warnings, osintResults, cache) =>
              ScanDone warnings osintResults
                (knockout (v_vulnerability vendor) osintResults) cache
          end
      end
  end.

(** ** Reference definitions, written from the specification's wording *)

Definition sumQ (l : list Q) : Q := foldr Qplus 0%Q l.

(** The questions "whose id appears in answers with a non-null value",
    each paired with that value. *)
Definition answered (answers : gmap Z (option Z)) (questions : list Question)
    : list (Question * Z) :=
  omap (fun q => match answers !! q_id q with
                 | Some (Some a) => Some (q, a)
                 | _ => None
                 end) questions.

(** "Weighted mean of normalized contributions [(6-a)/5]". *)
Definition weighted_mean (answers : gmap Z (option Z)) (questions : list Question) : Q :=
  (sumQ (map (fun qa => inject_Z (weight_of (fst qa)) * (inject_Z (6 - snd qa) / 5))
             (answered answers questions))
   / sumQ (map (fun qa => inject_Z (weight_of (fst qa))) (answered answers questions)))%Q.





(** "Sum of the criteria's points". *)
Definition total_points (criteria : list Criterion) : Q :=
  sumQ (map (fun c => default 0%Q (c_points c)) criteria).

(** Replacing one signal of the OSINT results. *)
Definition with_ssl (o : OsintResults) (s : option string) : OsintResults :=
  mkOsint (ransomware o) s (dmarc o).

Definition with_dmarc (o : OsintResults) (d : option bool) : OsintResults :=
  mkOsint (ransomware o) (ssl o) d.

(** "OSINT floors are monotonic", for a vulnerability seen as a function of
    the OSINT results: results never lower it; a failing certificate puts
    it at 80 or more and at or above what any other [ssl] value gives; a
    missing DMARC record puts it at 60 or more and at or above what any
    other [dmarc] value gives; both together give the larger of the base
    value and 80. *)
Definition osint_floors_monotone (vuln : option OsintResults -> Z) : Prop :=
  forall o,
    vuln None <= vuln (Some o)
    /\ (ssl o = Some "F"%string \/ ssl o = Some "Expired"%string ->
        80 <= vuln (Some o) /\ forall s, vuln (Some (with_ssl o s)) <= vuln (Some o))
    /\ (dmarc o = Some false ->
        60 <= vuln (Some o) /\ forall d, vuln (Some (with_dmarc o d)) <= vuln (Some o))
    /\ (ssl o = Some "F"%string \/ ssl o = Some "Expired"%string ->
        dmarc o = Some false ->
        vuln (Some o) = Z.max (vuln None) 80).

(** "Grade F if expired or fewer than 7 days remain, C if fewer than 30,
    B if fewer than 60, A otherwise". *)
Definition graded (days : Z) (grade : string) : Prop :=
  (days < 7 -> grade = "F"%string)
  /\ (7 <= days < 30 -> grade = "C"%string)
  /\ (30 <= days < 60 -> grade = "B"%string)
  /\ (60 <= days -> grade = "A"%string).

(** [hay] holds [needle] somewhere; [s] begins with [p]. *)
Definition occurs_in (needle hay : string) : Prop :=
  exists before after, hay = (before +:+ needle +:+ after)%string.

Definition begins_with (s p : string) : Prop :=
  exists rest, s = (p +:+ rest)%string.

(** A certificate result whose grade follows from its days remaining. *)
Definition ssl_result (r : Result) : Prop :=
  exists v d g, r = SslStats v d g /\ graded d g.

(** A DMARC result: a policy among the three when a record was found, no
    policy otherwise. *)
Definition dmarc_result (r : Result) : Prop :=
  exists h p d, r = DmarcInfo h p d
    /\ (h = true -> p = Some "none"%string \/ p = Some "quarantine"%string
                    \/ p = Some "reject"%string)
    /\ (h = false -> p = None).

(** Each check keeps its own results under its own key prefix. *)
Definition cache_ok (cache : Cache) : Prop :=
  forall key r t, cache !! key = Some (r, t) ->
    (exists d, key = ("ssl_" +:+ d)%string /\ ssl_result r)
    \/ (exists d, key = ("dmarc_" +:+ d)%string /\ dmarc_result r).

(** No DMARC result kept in the cache reports a record. *)
Definition dmarc_unseen (cache : Cache) : Prop :=
  forall key h p d t, cache !! key = Some (DmarcInfo h p d, t) -> h = false /\ p = None.

(** No entry for [key] is younger than 300 seconds when [_get_cache] reads
    the clock, so the check goes out to the network. *)
Definition no_fresh_entry (env : Env) (key : string) (cache : Cache) : Prop :=
  forall r t, cache !! key = Some (r, t) -> (300 <= clock_get env - t)%Q.

(** A post mentions the vendor: its lower-cased title holds the name, the
    domain, or a word of the name longer than three characters. *)
Definition mentions (name domain : string) (post_title : option string) : Prop :=
  (name <> ""%string /\ occurs_in name (lower (default ""%string post_title)))
  \/ (domain <> ""%string /\ occurs_in domain (lower (default ""%string post_title)))
  \/ (exists word, word ∈ split_words name /\ (3 < String.length word)%nat
                   /\ occurs_in word (lower (default ""%string post_title))).

(** Which floors a set of OSINT results, possibly absent, brings with it. *)
Definition ssl_floor_applies (osint_results : option OsintResults) : bool :=
  match osint_results with
  | Some o => ssl_failing o
  | None => false
  end.

Definition dmarc_floor_applies (osint_results : option OsintResults) : bool :=
  match osint_results with
  | Some o => dmarc_missing o
  | None => false
  end.

(** How each part of a scan shows in the warnings: the ransomware check,
    the certificate check and the DMARC check each leave one warning or
    none, tied to the signal they report. *)
Definition ransomware_part (found : option bool) (warnings : list Warning) : Prop :=
  (found = Some true /\ exists vendor_name, warnings = [ransomware_warning vendor_name])
  \/ ((found = Some false \/ found = None) /\ warnings = []).

Definition ssl_part (grade : option string) (warnings : list Warning) : Prop :=
  (grade = Some "F"%string
   /\ exists days,
        warnings = [ssl_warning "High"
                      ("SSL certificate expired or expiring soon (" +:+ str_int days
                       +:+ " days)")])
  \/ (grade = Some "C"%string
      /\ exists days,
           warnings = [ssl_warning "Medium"
                         ("SSL certificate expiring in " +:+ str_int days +:+ " days")])
  \/ ((grade = Some "B"%string \/ grade = Some "A"%string \/ grade = None)
      /\ warnings = []).

Definition dmarc_part (has_dmarc : option bool) (warnings : list Warning) : Prop :=
  (has_dmarc = Some false
   /\ exists message checked, warnings = [dmarc_warning "Medium" message checked])
  \/ (has_dmarc = Some true
      /\ exists message checked, warnings = [dmarc_warning "Low" message checked])
  \/ ((has_dmarc = Some true \/ has_dmarc = None) /\ warnings = []).






(** ** Concrete inputs used in the examples below *)

(** One criterion worth 100 points, answered at level 5. *)
Definition heavy_scores : gmap Z Z := {[ 1 := 5 ]}.
Definition heavy_criteria : list Criterion := [mkCriterion 1 (Some 100%Q) None].

(** The reference total: one criterion worth all 55 points. *)
Definition full_criteria : list Criterion := [mkCriterion 1 (Some 55%Q) None].

(** A critical criterion worth 15 points, answered at level 5. *)
Definition edge_criteria : list Criterion :=
  [mkCriterion 1 (Some 15%Q) (Some "Critical"%string)].

(** Three answers, one of them null, and four questions, one unanswered. *)
Definition some_answers : gmap Z (option Z) :=
  {[ 1 := Some 5; 2 := Some 1; 3 := None ]}.
Definition some_questions : list Question :=
  [mkQuestion 1 (Some "Critical"%string); mkQuestion 2 None;
   mkQuestion 3 (Some "High"%string); mkQuestion 9 None].

(** A failing certificate and no DMARC record. *)
Definition bad_osint : OsintResults := mkOsint None (Some "F"%string) (Some false).

(** A question nobody answered. *)
Definition other_question : list Question := [mkQuestion 7 (Some "High"%string)].

(** One entry, and it is null. *)
Definition null_answers : gmap Z (option Z) := {[ 1 := None ]}.

(** A ransomware hit and nothing else. *)
Definition leak_osint : OsintResults := mkOsint (Some true) None None.

(** A certificate with 29 days left, and a resolver that answers every
    name with one TXT record: [v=dmarc1; p=reject], in lower case, or the
    standard [v=DMARC1; p=reject]. *)
Definition lowercase_env : Env :=
  mkEnv 1000 1001 (fun _ => ProbeDays 29)
        (fun _ => DnsRecords [[list_byte_of_string "v=dmarc1; p=reject"]]).

Definition standard_env : Env :=
  mkEnv 1000 1001 (fun _ => ProbeDays 29)
        (fun _ => DnsRecords [[list_byte_of_string "v=DMARC1; p=reject"]]).

(** Fifty points earned, and a critical criterion left at level 0. *)
Definition gated_scores : gmap Z Z := {[ 1 := 5; 2 := 0 ]}.
Definition gated_criteria : list Criterion :=
  [mkCriterion 1 (Some 50%Q) None; mkCriterion 2 (Some 5%Q) (Some "Critical"%string)].

(** A later moment, at which nothing can be reached any more. *)
Definition later_env : Env :=
  mkEnv 1200 1201 (fun _ => ProbeError) (fun _ => DnsError).

(** A leak list with one post, and a vendor that shares a word with it. *)
Definition bank_posts : list Post := [PostTitle (Some "Bank of Ireland customer data"%string)].

(** A scan of [example.com]: a certificate with 29 days left, nothing
    reachable at DMARC time. *)
Definition sample_world : World :=
  mkWorld bank_posts lowercase_env (fun _ => later_env).

(** A cloud request whose criteria earn 14.6 points, and one with a
    critical criterion left at level 0. *)
Definition edge_request : AssessmentCalculate :=
  mkAssessment "cloud" None (Some heavy_scores) None
    (Some [mkCriterion 1 (Some (146 # 10)) None]) None.

Definition gated_request : AssessmentCalculate :=
  mkAssessment "cloud" None (Some gated_scores) None (Some gated_criteria) None.

(** A vendor without a primary domain and with a stored vulnerability of 0. *)
Definition sample_vendor : VendorRow := mkVendorRow "Acme Corp" ∅ 0.

(** Three answers whose weighted mean is exactly 72.5 per cent, and two
    criteria whose points add up to exactly 15 at level 3. *)
Definition tie_answers : gmap Z (option Z) := {[ 1 := Some 1; 2 := Some 2; 3 := Some 5 ]}.
Definition tie_questions : list Question :=
  [mkQuestion 1 (Some "Critical"%string); mkQuestion 2 (Some "Critical"%string);
   mkQuestion 3 (Some "High"%string)].

Definition boundary_scores : gmap Z Z := {[ 1 := 3; 2 := 3 ]}.
Definition boundary_criteria : list Criterion :=
  [mkCriterion 1 (Some 1%Q) None; mkCriterion 2 (Some 24%Q) None].

(** * Properties *)

(** ** The functions at work *)

Example py_round_ties :
  py_round (5 # 2) = 2 /\ py_round (7 # 2) = 4 /\ py_round (-5 # 2) = -2
  /\ py_round (-818181 # 10000) = -82.
Proof. repeat split. Qed.

Example calc_vulnerability_sample :
  calc_vulnerability some_answers some_questions None = 40
  /\ calc_vulnerability some_answers some_questions (Some bad_osint) = 80
  /\ calc_vulnerability null_answers some_questions None = 100.
Proof. repeat split. Qed.

Example calc_impact_likelihood_sample :
  (fst (calc_impact_likelihood some_answers some_questions None) == 7 # 2)%Q
  /\ (snd (calc_impact_likelihood some_answers some_questions (Some leak_osint)) == 5)%Q.
Proof. split; reflexivity. Qed.

Example cloud_boundaries :
  status (calc_cloud_vulnerability heavy_scores [mkCriterion 1 (Some 30%Q) None] None)
    = "Standard Approval"%string
  /\ status (calc_cloud_vulnerability heavy_scores [mkCriterion 1 (Some 45%Q) None] None)
    = "Elite (Pre-approved)"%string
  /\ status (calc_cloud_vulnerability heavy_scores [mkCriterion 1 (Some 14%Q) None] None)
    = "REJECT (Critical Risk)"%string.
Proof. repeat split. Qed.

Example python_strings :
  split_words "  bank of   america " = ["bank"; "of"; "america"]%string
  /\ split_commas "a, b,,c ," = ["a"; " b"; ""; "c "; ""]%string
  /\ split_commas "" = [""%string]
  /\ strip "  a b  " = "a b"%string
  /\ remove_spaces "acme corp ltd" = "acmecorpltd"%string
  /\ str_int (-12) = "-12"%string /\ str_int 0 = "0"%string.
Proof. repeat split. Qed.

Example check_vendor_ransomware_samples :
  check_vendor_ransomware bank_posts "Bank of America" "boa.com" = true
  /\ check_vendor_ransomware bank_posts "First Bank" "" = true
  /\ check_vendor_ransomware bank_posts "Acme" "acme.com" = false
  /\ check_vendor_ransomware (PostMalformed :: bank_posts) "Bank of America" "" = false
  /\ check_vendor_ransomware bank_posts "  " "" = false.
Proof. repeat split. Qed.

Example cloud_critical_gate :
  calc_cloud_vulnerability gated_scores gated_criteria None
  = mkCloudResult 50 55 9 "REJECT (Critical Risk)" "red" true.
Proof. reflexivity. Qed.

(** ** Rounding *)

Lemma Qlt_bool_true x y : Qlt_bool x y = true <-> (x < y)%Q.
Proof.
  unfold Qlt_bool. rewrite Qlt_alt. destruct (x ?= y)%Q; split; congruence.
Qed.

Lemma Qlt_bool_false x y : Qlt_bool x y = false <-> (y <= x)%Q.
Proof.
  rewrite <- not_true_iff_false, Qlt_bool_true. split.
  - apply Qnot_lt_le.
  - apply Qle_not_lt.
Qed.

Lemma py_round_cases q :
  let f := Qfloor q in
  (inject_Z f <= q < inject_Z f + 1)%Q /\
  ((q - inject_Z f < 1 # 2)%Q /\ py_round q = f
   \/ (1 # 2 < q - inject_Z f)%Q /\ py_round q = f + 1
   \/ (q - inject_Z f == 1 # 2)%Q /\ py_round q = (if Z.even f then f else f + 1)).
Proof.
  intros f. split.
  - split; [apply Qfloor_le|].
    pose proof (Qlt_floor q) as H. rewrite inject_Z_plus in H. exact H.
  - unfold py_round. fold f.
    destruct (q - inject_Z f ?= 1 # 2)%Q eqn:E.
    + right; right. split; [by apply Qeq_alt | done].
    + left. split; [by apply Qlt_alt | done].
    + right; left. split; [by apply Qgt_alt | done].
Qed.

Lemma py_round_proper q1 q2 : (q1 == q2)%Q -> py_round q1 = py_round q2.
Proof.
  intros H. unfold py_round. rewrite (Qfloor_comp _ _ H).
  assert (q1 - inject_Z (Qfloor q2) == q2 - inject_Z (Qfloor q2))%Q as E by (rewrite H; reflexivity).
  by rewrite (Qcompare_comp _ _ E _ _ (Qeq_refl _)).
Qed.

Lemma py_round_inject n : py_round (inject_Z n) = n.
Proof.
  unfold py_round. rewrite Qfloor_Z.
  assert ((inject_Z n - inject_Z n ?= 1 # 2)%Q = Lt) as ->; [|done].
  rewrite <- Qlt_alt. lra.
Qed.


Lemma py_round_mono q1 q2 : (q1 <= q2)%Q -> py_round q1 <= py_round q2.
Proof.
  intros Hle.
  pose proof (Qfloor_resp_le _ _ Hle) as Hf.
  destruct (py_round_cases q1) as [[Hlo1 Hhi1] Hc1].
  destruct (py_round_cases q2) as [[Hlo2 Hhi2] Hc2]. cbv zeta in *.
  assert (py_round q1 <= Qfloor q1 + 1) as Hup.
  { destruct Hc1 as [[_ ->] | [[_ ->] | [_ ->]]]; [lia | lia |].
    destruct (Z.even (Qfloor q1)); lia. }
  assert (Qfloor q2 <= py_round q2) as Hdown.
  { destruct Hc2 as [[_ ->] | [[_ ->] | [_ ->]]]; [lia | lia |].
    destruct (Z.even (Qfloor q2)); lia. }
  destruct (Z.eq_dec (Qfloor q1) (Qfloor q2)) as [Heq | Hne]; [| lia].
  rewrite Heq in *.
  destruct Hc1 as [[H1 ->] | [[H1 ->] | [H1 ->]]];
    destruct Hc2 as [[H2 ->] | [[H2 ->] | [H2 ->]]];
    try destruct (Z.even (Qfloor q2)); try lia; exfalso; lra.
Qed.

Lemma py_round_between q lo hi :
  (inject_Z lo <= q <= inject_Z hi)%Q -> lo <= py_round q <= hi.
Proof.
  intros [H1 H2]. split.
  - rewrite <- (py_round_inject lo). by apply py_round_mono.
  - rewrite <- (py_round_inject hi). by apply py_round_mono.
Qed.

(** ** Cloud track *)

(** The loop of lines 60-64 computes the sum the specification writes. *)
Lemma cloud_fold_sum scores criteria acc :
  (fold_left (cloud_step scores) criteria acc ==
   acc + sumQ (map (fun c => inject_Z (default 0%Z (scores !! c_id c)) / 5
                             * default 0%Q (c_points c)) criteria))%Q.
Proof.
  revert acc. induction criteria as [| c criteria IH]; intros acc; simpl.
  - lra.
  - rewrite IH. unfold cloud_step. lra.
Qed.

Lemma cloud_total_score_sum scores criteria :
  (cloud_total_score scores criteria ==
   sumQ (map (fun c => inject_Z (default 0%Z (scores !! c_id c)) / 5
                       * default 0%Q (c_points c)) criteria))%Q.
Proof. unfold cloud_total_score. rewrite cloud_fold_sum. lra. Qed.

Lemma maturity_in_range (scores : gmap Z Z) (k : Z) :
  map_Forall (fun _ v => 0 <= v <= 5) scores ->
  (0 <= inject_Z (default 0%Z (scores !! k)) <= 5)%Q.
Proof.
  intros Hs.
  assert (0 <= default 0 (scores !! k) <= 5) as [H0 H5].
  { destruct (scores !! k) as [v|] eqn:E; simpl; [| lia].
    exact (map_Forall_lookup_1 _ _ _ _ Hs E). }
  split.
  - change 0%Q with (inject_Z 0). by rewrite <- Zle_Qle.
  - change 5%Q with (inject_Z 5). by rewrite <- Zle_Qle.
Qed.

Lemma scaled_points_range (m p : Q) :
  (0 <= m <= 5)%Q -> (0 <= p)%Q -> (0 <= m / 5 * p <= p)%Q.
Proof.
  intros Hm Hp.
  assert (m / 5 == m * (1 # 5))%Q as -> by field.
  split; nra.
Qed.

Lemma cloud_total_score_range scores criteria :
  map_Forall (fun _ v => 0 <= v <= 5) scores ->
  Forall (fun c => 0 <= default 0 (c_points c))%Q criteria ->
  (0 <= cloud_total_score scores criteria <= total_points criteria)%Q.
Proof.
  intros Hs Hc. rewrite cloud_total_score_sum. unfold total_points.
  induction Hc as [| c criteria Hp _ IH]; simpl.
  - lra.
  - pose proof (scaled_points_range _ _ (maturity_in_range scores (c_id c) Hs) Hp).
    lra.
Qed.


(** Case analysis on the tests that pick the status. *)
Ltac case_status :=
  repeat match goal with
         | |- context [if ?b then _ else _] =>
             lazymatch b with
             | orb _ _ => destruct b
             | Qlt_bool _ _ => destruct b
             end
         end.

Lemma cloud_vulnerability_floor scores criteria osint :
  vulnerability (calc_cloud_vulnerability scores criteria osint) =
  osint_floor_int osint (vulnerability (calc_cloud_vulnerability scores criteria None)).
Proof.
  unfold calc_cloud_vulnerability. case_status; reflexivity.
Qed.

Lemma cloud_fields scores criteria osint :
  score (calc_cloud_vulnerability scores criteria osint)
    = py_round (cloud_total_score scores criteria)
  /\ maxScore (calc_cloud_vulnerability scores criteria osint) = 55
  /\ missedCritical (calc_cloud_vulnerability scores criteria osint)
    = cloud_missed_critical scores criteria
  /\ vulnerability (calc_cloud_vulnerability scores criteria None)
    = py_round ((1 - cloud_total_score scores criteria / 55) * 100)%Q.
Proof.
  unfold calc_cloud_vulnerability. case_status; done.
Qed.

(** Case analysis on the two signals the floors look at. *)
Ltac case_floors osint :=
  let o := fresh "o" in
  destruct osint as [o |]; simpl;
  [destruct (ssl_failing o), (dmarc_missing o) |].

Lemma osint_floor_int_ge osint v : v <= osint_floor_int osint v.
Proof. case_floors osint; lia. Qed.

Lemma osint_floor_int_range osint v : 0 <= v <= 100 -> 0 <= osint_floor_int osint v <= 100.
Proof. intros H. case_floors osint; lia. Qed.

Lemma osint_floor_int_mono osint v v' :
  v <= v' -> osint_floor_int osint v <= osint_floor_int osint v'.
Proof. intros H. case_floors osint; lia. Qed.

(** C1, counterexample: with one criterion worth 100 points answered at
    level 5 (scores within 0-5, points non-negative) the returned score is
    100, above [maxScore = 55], and the vulnerability is -82, below 0. *)
Lemma cloud_bounds_counterexample :
  map_Forall (fun _ v => 0 <= v <= 5) heavy_scores
  /\ Forall (fun c => 0 <= default 0 (c_points c))%Q heavy_criteria
  /\ score (calc_cloud_vulnerability heavy_scores heavy_criteria None) = 100
  /\ maxScore (calc_cloud_vulnerability heavy_scores heavy_criteria None) = 55
  /\ vulnerability (calc_cloud_vulnerability heavy_scores heavy_criteria None) = -82
  /\ ~ (0 <= score (calc_cloud_vulnerability heavy_scores heavy_criteria None)
          <= maxScore (calc_cloud_vulnerability heavy_scores heavy_criteria None)
        /\ 0 <= vulnerability (calc_cloud_vulnerability heavy_scores heavy_criteria None)
          <= 100).
Proof.
  split; [apply map_Forall_singleton; lia |].
  split; [repeat constructor; simpl; lra |].
  assert (calc_cloud_vulnerability heavy_scores heavy_criteria None
          = mkCloudResult 100 55 (-82) "Elite (Pre-approved)" "green" false) as ->
    by (vm_compute; reflexivity).
  simpl. repeat split; try reflexivity. lia.
Qed.

(** C1 (amended): for every scores map with values in 0-5 and every
    criteria list with non-negative points whose points add up to at most
    55, the result has [maxScore = 55], [score] in [0, maxScore] and
    [vulnerability] in [0, 100], whatever the OSINT results. *)
Theorem cloud_score_vulnerability_bounds scores criteria osint_results :
  map_Forall (fun _ v => 0 <= v <= 5) scores ->
  Forall (fun c => 0 <= default 0 (c_points c))%Q criteria ->
  (total_points criteria <= 55)%Q ->
  maxScore (calc_cloud_vulnerability scores criteria osint_results) = 55
  /\ 0 <= score (calc_cloud_vulnerability scores criteria osint_results)
       <= maxScore (calc_cloud_vulnerability scores criteria osint_results)
  /\ 0 <= vulnerability (calc_cloud_vulnerability scores criteria osint_results) <= 100.
Proof.
  intros Hs Hc Hp.
  destruct (cloud_total_score_range scores criteria Hs Hc) as [H0 Hle].
  destruct (cloud_fields scores criteria osint_results) as (Hsc & Hmax & _ & Hv).
  rewrite cloud_vulnerability_floor, Hsc, Hmax, Hv.
  split; [done |]. split.
  - apply py_round_between. change (inject_Z 0) with 0%Q.
    change (inject_Z 55) with 55%Q. lra.
  - apply osint_floor_int_range, py_round_between.
    change (inject_Z 0) with 0%Q. change (inject_Z 100) with 100%Q.
    set (t := cloud_total_score scores criteria) in *.
    assert (t / 55 == t * (1 # 55))%Q as -> by field.
    lra.
Qed.

Lemma cloud_score_vulnerability_bounds_witness :
  maxScore (calc_cloud_vulnerability heavy_scores full_criteria None) = 55
  /\ 0 <= score (calc_cloud_vulnerability heavy_scores full_criteria None)
       <= maxScore (calc_cloud_vulnerability heavy_scores full_criteria None)
  /\ 0 <= vulnerability (calc_cloud_vulnerability heavy_scores full_criteria None) <= 100.
Proof.
  apply (cloud_score_vulnerability_bounds heavy_scores full_criteria None).
  - apply map_Forall_singleton. lia.
  - repeat constructor. simpl. lra.
  - vm_compute. discriminate.
Defined.

(** ** OSINT floors *)

Lemma py_round_Qmax q n : py_round (Qmax q (inject_Z n)) = Z.max (py_round q) n.
Proof.
  destruct (Q.max_spec q (inject_Z n)) as [[Hlt Heq] | [Hle Heq]];
    rewrite (py_round_proper _ _ Heq).
  - rewrite py_round_inject.
    pose proof (py_round_mono q (inject_Z n) (Qlt_le_weak _ _ Hlt)) as H.
    rewrite py_round_inject in H. lia.
  - pose proof (py_round_mono (inject_Z n) q Hle) as H.
    rewrite py_round_inject in H. lia.
Qed.

(** Rounding after the floors is flooring after the rounding. *)
Lemma py_round_osint_floor osint v :
  py_round (osint_floor osint v) = osint_floor_int osint (py_round v).
Proof.
  case_floors osint; try done;
    change 80%Q with (inject_Z 80); change 60%Q with (inject_Z 60);
    by rewrite ?py_round_Qmax.
Qed.

Lemma ssl_failing_true o :
  ssl_failing o = true <-> ssl o = Some "F"%string \/ ssl o = Some "Expired"%string.
Proof. unfold ssl_failing. by rewrite orb_true_iff, !bool_decide_eq_true. Qed.

Lemma dmarc_missing_true o : dmarc_missing o = true <-> dmarc o = Some false.
Proof. unfold dmarc_missing. by rewrite bool_decide_eq_true. Qed.

(** ** Standard track: vulnerability *)

Lemma weight_of_cases q :
  (q_weight q = Some "Critical"%string /\ weight_of q = 3)
  \/ (q_weight q = Some "High"%string /\ weight_of q = 2)
  \/ (q_weight q <> Some "Critical"%string /\ q_weight q <> Some "High"%string
      /\ weight_of q = 1).
Proof.
  unfold weight_of. repeat case_bool_decide; auto.
Qed.

Lemma weight_of_pos q : 1 <= weight_of q.
Proof. destruct (weight_of_cases q) as [[_ ->] | [[_ ->] | (_ & _ & ->)]]; lia. Qed.

(** The loop of lines 22-32 accumulates the two sums of the weighted mean. *)
Lemma vuln_fold answers questions acc :
  (inject_Z (fst (fold_left (vuln_step answers) questions acc)) ==
     inject_Z (fst acc)
     + sumQ (map (fun qa => inject_Z (weight_of (fst qa))) (answered answers questions)))%Q
  /\ (snd (fold_left (vuln_step answers) questions acc) ==
        snd acc
        + sumQ (map (fun qa => inject_Z (weight_of (fst qa)) * (inject_Z (6 - snd qa) / 5))
                    (answered answers questions)))%Q.
Proof.
  revert acc. induction questions as [| q questions IH]; intros acc; simpl.
  - split; lra.
  - destruct (IH (vuln_step answers acc q)) as [IH1 IH2].
    rewrite IH1, IH2. clear IH IH1 IH2.
    unfold vuln_step.
    destruct (answers !! q_id q) as [[a |] |]; simpl; try (split; lra).
    rewrite inject_Z_plus. split; lra.
Qed.

Lemma answered_nil answers questions :
  answered answers questions = [] <->
  forall q, q ∈ questions -> answers !! q_id q = None \/ answers !! q_id q = Some None.
Proof.
  induction questions as [| q questions IH]; simpl.
  - split; [intros _ q Hq; by apply elem_of_nil in Hq | done].
  - destruct (answers !! q_id q) as [[a |] |] eqn:E; simpl.
    + split; [done |]. intros H.
      destruct (H q (list_elem_of_here _ _)) as [H' | H']; congruence.
    + rewrite IH. split.
      * intros H q' [-> | Hq']%elem_of_cons; [rewrite E; by right | by apply H].
      * intros H q' Hq'. apply H. by apply list_elem_of_further.
    + rewrite IH. split.
      * intros H q' [-> | Hq']%elem_of_cons; [rewrite E; by left | by apply H].
      * intros H q' Hq'. apply H. by apply list_elem_of_further.
Qed.

Lemma answered_elem answers questions q a :
  (q, a) ∈ answered answers questions <->
  q ∈ questions /\ answers !! q_id q = Some (Some a).
Proof.
  unfold answered. rewrite list_elem_of_omap. split.
  - intros (q' & Hq' & H).
    destruct (answers !! q_id q') as [[a' |] |] eqn:E; simplify_eq. done.
  - intros [Hq H]. exists q. by rewrite H.
Qed.

Lemma weight_sum_pos (l : list (Question * Z)) :
  l <> [] -> (0 < sumQ (map (fun qa => inject_Z (weight_of (fst qa))) l))%Q.
Proof.
  assert (forall l, 0 <= sumQ (map (fun qa : Question * Z => inject_Z (weight_of (fst qa))) l))%Q
    as Hnn.
  { clear. induction l as [| x l IH]; simpl; [lra |].
    pose proof (weight_of_pos (fst x)) as Hw.
    rewrite Zle_Qle in Hw. change (inject_Z 1) with 1%Q in Hw. lra. }
  destruct l as [| x l]; [done | intros _; simpl].
  pose proof (weight_of_pos (fst x)) as Hw.
  rewrite Zle_Qle in Hw. change (inject_Z 1) with 1%Q in Hw.
  specialize (Hnn l). lra.
Qed.

(** Past the two early returns the result is the rounded, floored mean. *)
Lemma calc_vulnerability_mean answers questions osint_results :
  answers <> ∅ ->
  answered answers questions <> [] ->
  calc_vulnerability answers questions osint_results =
  osint_floor_int osint_results (py_round (weighted_mean answers questions * 100)).
Proof.
  intros Hne Hans. unfold calc_vulnerability.
  rewrite bool_decide_eq_false_2 by done.
  destruct (vuln_fold answers questions (0, 0%Q)) as [Hw Hs]. simpl in Hw, Hs.
  pose proof (weight_sum_pos _ Hans) as Hpos.
  set (acc := fold_left (vuln_step answers) questions (0, 0%Q)) in *.
  destruct (Z.eqb_spec (fst acc) 0) as [E | _].
  - rewrite E in Hw. change (inject_Z 0) with 0%Q in Hw. lra.
  - rewrite py_round_osint_floor. f_equal. apply py_round_proper.
    unfold weighted_mean. rewrite Hs, Hw.
    change (inject_Z 0) with 0%Q. by rewrite !Qplus_0_l.
Qed.

Lemma calc_vulnerability_unmatched answers questions osint_results :
  answered answers questions = [] ->
  calc_vulnerability answers questions osint_results = 100.
Proof.
  intros Hans. unfold calc_vulnerability. case_bool_decide; [done |].
  destruct (vuln_fold answers questions (0, 0%Q)) as [Hw _]. simpl in Hw.
  rewrite Hans in Hw. simpl in Hw.
  set (acc := fold_left (vuln_step answers) questions (0, 0%Q)) in *.
  destruct (Z.eqb_spec (fst acc) 0) as [_ | Hne]; [done |].
  exfalso. apply Hne. apply inject_Z_injective. rewrite Hw. lra.
Qed.

(** The floors act on the value computed without OSINT results. *)
Lemma calc_vulnerability_floor answers questions osint_results :
  calc_vulnerability answers questions osint_results =
  osint_floor_int osint_results (calc_vulnerability answers questions None).
Proof.
  destruct (decide (answers = ∅)) as [-> | Hne].
  - unfold calc_vulnerability. rewrite bool_decide_eq_true_2 by done.
    destruct osint_results as [o |]; simpl; [| done].
    destruct (ssl_failing o), (dmarc_missing o); reflexivity.
  - destruct (decide (answered answers questions = [])) as [E | E].
    + rewrite !calc_vulnerability_unmatched by done.
      destruct osint_results as [o |]; simpl; [| done].
      destruct (ssl_failing o), (dmarc_missing o); reflexivity.
    + by rewrite !calc_vulnerability_mean.
Qed.

Lemma osint_floor_int_monotone (vuln : option OsintResults -> Z) :
  (forall osint_results, vuln osint_results = osint_floor_int osint_results (vuln None)) ->
  osint_floors_monotone vuln.
Proof.
  intros Hf o. rewrite (Hf (Some o)).
  split; [apply osint_floor_int_ge |].
  split; [| split].
  - intros Hssl%ssl_failing_true. split.
    + simpl. rewrite Hssl. destruct (dmarc_missing o); lia.
    + intros s. rewrite (Hf (Some (with_ssl o s))). simpl.
      change (dmarc_missing (with_ssl o s)) with (dmarc_missing o).
      rewrite Hssl. destruct (ssl_failing (with_ssl o s)), (dmarc_missing o); lia.
  - intros Hd%dmarc_missing_true. split.
    + simpl. rewrite Hd. lia.
    + intros d. rewrite (Hf (Some (with_dmarc o d))). simpl.
      change (ssl_failing (with_dmarc o d)) with (ssl_failing o).
      rewrite Hd. destruct (ssl_failing o), (dmarc_missing (with_dmarc o d)); lia.
  - intros Hssl%ssl_failing_true Hd%dmarc_missing_true.
    simpl. rewrite Hssl, Hd. lia.
Qed.

(** C2: in both tracks the OSINT floor adjustment never lowers the
    vulnerability; with [ssl] "F" or "Expired" the result is at least 80 and
    at least the result for any other [ssl] value; with [dmarc] False it is
    at least 60 and at least the result for any other [dmarc] value; with
    both it is the maximum of the base result and 80.  The adjustment also
    keeps the order of two base results. *)
Theorem osint_floors answers questions scores criteria :
  osint_floors_monotone (calc_vulnerability answers questions)
  /\ osint_floors_monotone
       (fun osint_results =>
          vulnerability (calc_cloud_vulnerability scores criteria osint_results))
  /\ (forall answers' questions' osint_results,
        calc_vulnerability answers questions None
          <= calc_vulnerability answers' questions' None ->
        calc_vulnerability answers questions osint_results
          <= calc_vulnerability answers' questions' osint_results)
  /\ (forall scores' criteria' osint_results,
        vulnerability (calc_cloud_vulnerability scores criteria None)
          <= vulnerability (calc_cloud_vulnerability scores' criteria' None) ->
        vulnerability (calc_cloud_vulnerability scores criteria osint_results)
          <= vulnerability (calc_cloud_vulnerability scores' criteria' osint_results)).
Proof.
  split; [| split; [| split]].
  - apply osint_floor_int_monotone. intros osint_results. apply calc_vulnerability_floor.
  - apply osint_floor_int_monotone. intros osint_results. apply cloud_vulnerability_floor.
  - intros answers' questions' osint_results H.
    rewrite (calc_vulnerability_floor answers), (calc_vulnerability_floor answers').
    by apply osint_floor_int_mono.
  - intros scores' criteria' osint_results H.
    rewrite (cloud_vulnerability_floor scores), (cloud_vulnerability_floor scores').
    by apply osint_floor_int_mono.
Qed.

Lemma osint_floors_witness :
  calc_vulnerability some_answers some_questions (Some bad_osint)
  = Z.max (calc_vulnerability some_answers some_questions None) 80
  /\ 80 <= vulnerability (calc_cloud_vulnerability heavy_scores full_criteria (Some bad_osint)).
Proof.
  destruct (osint_floors some_answers some_questions heavy_scores full_criteria)
    as (Hstd & Hcloud & _).
  destruct (Hstd bad_osint) as (_ & _ & _ & Hboth).
  destruct (Hcloud bad_osint) as (_ & Hssl & _).
  split.
  - apply Hboth; [left |]; reflexivity.
  - apply Hssl. left. reflexivity.
Defined.

(** C5: [calc_vulnerability] returns 100 on an empty answers map, for every
    questions list and OSINT results, and also when no question of the list
    has its id answered with a non-null value. *)
Theorem calc_vulnerability_no_data answers questions osint_results :
  calc_vulnerability ∅ questions osint_results = 100
  /\ ((forall q, q ∈ questions ->
         answers !! q_id q = None \/ answers !! q_id q = Some None) ->
      calc_vulnerability answers questions osint_results = 100).
Proof.
  split.
  - unfold calc_vulnerability. by rewrite bool_decide_eq_true_2.
  - intros H. by apply calc_vulnerability_unmatched, answered_nil.
Qed.

Lemma calc_vulnerability_no_data_witness :
  calc_vulnerability some_answers other_question (Some bad_osint) = 100.
Proof.
  apply (calc_vulnerability_no_data some_answers other_question (Some bad_osint)).
  intros q ->%list_elem_of_singleton. left. reflexivity.
Defined.


(** ** Standard track: impact and likelihood *)

Lemma py_sum_foldr l acc : fold_left Z.add l acc = acc + foldr Z.add 0 l.
Proof.
  revert acc. induction l as [| x l IH]; intros acc; simpl; [lia |].
  rewrite IH. lia.
Qed.



Lemma answer_vals_elem answers a :
  a ∈ answer_vals answers <-> exists k, answers !! k = Some (Some a).
Proof.
  unfold answer_vals. rewrite list_elem_of_omap. split.
  - intros (v & Hv & E). simpl in E. subst v.
    apply list_elem_of_fmap in Hv as ([k v] & -> & Hkv).
    exists k. by apply elem_of_map_to_list.
  - intros (k & Hk). exists (Some a). split; [| done].
    apply list_elem_of_fmap. exists (k, Some a). split; [done |].
    by apply elem_of_map_to_list.
Qed.

Lemma answer_vals_nil answers :
  answer_vals answers = [] <-> forall k v, answers !! k = Some v -> v = None.
Proof.
  split.
  - intros E k [a |] Hk; [| done].
    assert (a ∈ answer_vals answers) as Hin by (apply answer_vals_elem; eauto).
    rewrite E in Hin. by apply elem_of_nil in Hin.
  - intros H. destruct (answer_vals answers) as [| a l] eqn:E; [done |].
    assert (a ∈ answer_vals answers) as Hin by (rewrite E; apply list_elem_of_here).
    apply answer_vals_elem in Hin as (k & Hk). by apply H in Hk.
Qed.


(** The function seen through its two guards. *)
Lemma calc_impact_likelihood_cases answers questions osint_results :
  (answer_vals answers = []
   /\ calc_impact_likelihood answers questions osint_results
      = (3%Q, if ransomware_hit osint_results then 5%Q else 3%Q))
  \/ (answer_vals answers <> []
      /\ answers <> ∅
      /\ calc_impact_likelihood answers questions osint_results
         = (maturity_to_risk
              (inject_Z (py_sum (answer_vals answers))
               / inject_Z (Z.of_nat (length (answer_vals answers)))),
            if ransomware_hit osint_results then 5%Q
            else maturity_to_risk
                   (inject_Z (py_sum (answer_vals answers))
                    / inject_Z (Z.of_nat (length (answer_vals answers)))))).
Proof.
  unfold calc_impact_likelihood. case_bool_decide as Hempty.
  - left. subst answers. split; [| done].
    unfold answer_vals. by rewrite map_to_list_empty.
  - destruct (answer_vals answers) as [| a l] eqn:E; [left | right]; done.
Qed.

Lemma ransomware_hit_true osint_results :
  ransomware_hit osint_results = true <->
  exists o, osint_results = Some o /\ ransomware o = Some true.
Proof.
  destruct osint_results as [o |]; simpl.
  - rewrite bool_decide_eq_true. split.
    + intros H. by exists o.
    + intros (o' & [= <-] & H). exact H.
  - split; [done |]. intros (o & E & _). discriminate E.
Qed.




(** C7: with [ransomware] True the likelihood is exactly 5 and the impact
    is what it is without any OSINT results; OSINT results that differ only
    in [ssl] and [dmarc] give the same (impact, likelihood), and results
    without a [ransomware] entry give what no results at all give. *)
Theorem ransomware_override answers questions o :
  (ransomware o = Some true ->
   snd (calc_impact_likelihood answers questions (Some o)) = 5%Q
   /\ fst (calc_impact_likelihood answers questions (Some o))
      = fst (calc_impact_likelihood answers questions None))
  /\ (forall o', ransomware o' = ransomware o ->
      calc_impact_likelihood answers questions (Some o')
      = calc_impact_likelihood answers questions (Some o))
  /\ (ransomware o = None ->
      calc_impact_likelihood answers questions (Some o)
      = calc_impact_likelihood answers questions None).
Proof.
  split; [| split].
  - intros Hr.
    assert (ransomware_hit (Some o) = true) as Hhit
      by (apply ransomware_hit_true; eauto).
    destruct (calc_impact_likelihood_cases answers questions (Some o))
      as [[E ->] | (E & _ & ->)];
      destruct (calc_impact_likelihood_cases answers questions None)
        as [[E' ->] | (E' & _ & ->)]; try done; by rewrite Hhit.
  - intros o' Ho'.
    assert (ransomware_hit (Some o') = ransomware_hit (Some o)) as Hhit
      by (simpl; by rewrite Ho').
    destruct (calc_impact_likelihood_cases answers questions (Some o))
      as [[E ->] | (E & _ & ->)];
      destruct (calc_impact_likelihood_cases answers questions (Some o'))
        as [[E' ->] | (E' & _ & ->)]; try done; by rewrite Hhit.
  - intros Ho.
    assert (ransomware_hit (Some o) = false) as Hhit by (simpl; by rewrite Ho).
    destruct (calc_impact_likelihood_cases answers questions (Some o))
      as [[E ->] | (E & _ & ->)];
      destruct (calc_impact_likelihood_cases answers questions None)
        as [[E' ->] | (E' & _ & ->)]; try done; by rewrite Hhit.
Qed.

Lemma ransomware_override_witness :
  snd (calc_impact_likelihood some_answers some_questions (Some leak_osint)) = 5%Q
  /\ fst (calc_impact_likelihood some_answers some_questions (Some leak_osint))
     = fst (calc_impact_likelihood some_answers some_questions None).
Proof.
  apply (ransomware_override some_answers some_questions leak_osint). reflexivity.
Defined.

(** C10: for a non-empty answers map whose values are all null the result
    is the one for the empty map: (3, 3), or (3, 5) when [ransomware] is
    True. *)
Theorem impact_likelihood_all_null answers questions osint_results :
  answers <> ∅ ->
  (forall k v, answers !! k = Some v -> v = None) ->
  calc_impact_likelihood answers questions osint_results
    = calc_impact_likelihood ∅ questions osint_results
  /\ ((exists o, osint_results = Some o /\ ransomware o = Some true) ->
      calc_impact_likelihood answers questions osint_results = (3%Q, 5%Q))
  /\ (~ (exists o, osint_results = Some o /\ ransomware o = Some true) ->
      calc_impact_likelihood answers questions osint_results = (3%Q, 3%Q)).
Proof.
  intros _ Hall%answer_vals_nil.
  destruct (calc_impact_likelihood_cases answers questions osint_results)
    as [[_ ->] | [Hne _]]; [| done].
  split; [| split].
  - unfold calc_impact_likelihood. by rewrite bool_decide_eq_true_2.
  - intros H%ransomware_hit_true. by rewrite H.
  - intros H. rewrite <- ransomware_hit_true in H.
    apply not_true_iff_false in H. by rewrite H.
Qed.

Lemma impact_likelihood_all_null_witness :
  calc_impact_likelihood null_answers some_questions (Some leak_osint) = (3%Q, 5%Q).
Proof.
  destruct (impact_likelihood_all_null null_answers some_questions (Some leak_osint))
    as (_ & H & _).
  - intros E. apply (f_equal (fun m : gmap Z (option Z) => m !! 1)) in E. discriminate E.
  - intros k v Hk. unfold null_answers in Hk.
    apply lookup_singleton_Some in Hk as [_ <-]. reflexivity.
  - apply H. exists leak_osint. split; reflexivity.
Defined.

(** ** Strings *)

Lemma append_assoc (a b c : string) : ((a +:+ b) +:+ c = a +:+ (b +:+ c))%string.
Proof.
  induction a as [| x a IH]; [done |].
  change (String x ((a +:+ b) +:+ c) = String x (a +:+ (b +:+ c)))%string.
  by rewrite IH.
Qed.

Lemma prefix_begins_with p s : String.prefix p s = true <-> begins_with s p.
Proof.
  unfold begins_with. revert s. induction p as [| a p IH]; intros s.
  - destruct s; simpl; split; eauto.
  - destruct s as [| b s]; simpl.
    + split; [done | intros [rest H]; discriminate H].
    + destruct (ascii_dec a b) as [<- | Hne].
      * rewrite IH. split; intros [rest H]; exists rest.
        -- by rewrite H.
        -- change (String a s = String a (p +:+ rest))%string in H. congruence.
      * split; [done | intros [rest H]].
        change (String b s = String a (p +:+ rest))%string in H. congruence.
Qed.

Lemma contains_unfold needle hay :
  contains needle hay
  = String.prefix needle hay
    || match hay with
       | EmptyString => false
       | String _ rest => contains needle rest
       end.
Proof. by destruct hay. Qed.

Lemma contains_occurs_in needle hay : contains needle hay = true <-> occurs_in needle hay.
Proof.
  unfold occurs_in. split.
  - induction hay as [| c hay IH]; rewrite contains_unfold, orb_true_iff.
    + intros [[rest H]%prefix_begins_with | H]; [| done].
      exists ""%string, rest. exact H.
    + intros [[rest H]%prefix_begins_with | H].
      * exists ""%string, rest. exact H.
      * destruct (IH H) as (before & after & ->).
        by exists (String c before), after.
  - intros (before & after & ->).
    induction before as [| c before IH]; rewrite contains_unfold.
    + apply orb_true_iff. left. apply prefix_begins_with. by exists after.
    + apply orb_true_iff. right. exact IH.
Qed.

Lemma occurs_in_longer needle more hay :
  occurs_in (needle +:+ more) hay -> occurs_in needle hay.
Proof.
  intros (before & after & ->). exists before, (more +:+ after)%string.
  by rewrite append_assoc.
Qed.

(** ** DMARC records *)

(** The text joined from [str(r)] of [bytes] objects is empty or starts
    with the letter [b] of a [repr]: it never starts with the version tag. *)
Lemma record_text_unversioned (record : list bytes) :
  startswith (lower (join (map str_bytes record))) "v=dmarc1" = false.
Proof.
  destruct record as [| b [| b' record]]; reflexivity.
Qed.

(** So the loop over the records finds none. *)
Lemma scan_records_none domain records : scan_records domain records = None.
Proof.
  induction records as [| record records IH]; [done |].
  simpl. by rewrite record_text_unversioned.
Qed.

(** ** The cache *)

Lemma key_prefixes_differ d d' : ("ssl_" +:+ d)%string <> ("dmarc_" +:+ d')%string.
Proof. simpl. discriminate. Qed.

Lemma get_cache_hit key ttl now (cache : Cache) r :
  fst (_get_cache key ttl now cache) = Some r ->
  exists t, cache !! key = Some (r, t) /\ (now - t < ttl)%Q.
Proof.
  unfold _get_cache. destruct (cache !! key) as [[r' t] |]; [| done].
  destruct (Qlt_bool (now - t) ttl) eqn:E; [| done].
  intros [= ->]. exists t. split; [done | by apply Qlt_bool_true].
Qed.

Lemma get_cache_miss key (env : Env) (cache : Cache) :
  no_fresh_entry env key cache ->
  fst (_get_cache key 300 (clock_get env) cache) = None.
Proof.
  intros Hstale. unfold _get_cache.
  destruct (cache !! key) as [[r t] |] eqn:E; [| done].
  assert (Qlt_bool (clock_get env - t) 300 = false) as ->; [| done].
  apply Qlt_bool_false. by apply (Hstale r).
Qed.

Lemma get_cache_ok key ttl now (cache : Cache) :
  cache_ok cache -> cache_ok (snd (_get_cache key ttl now cache)).
Proof.
  intros Hok. unfold _get_cache.
  destruct (cache !! key) as [[r t] |]; [| done].
  destruct (Qlt_bool (now - t) ttl); [done |]. simpl.
  intros key' r' t' [_ H]%lookup_delete_Some. by apply (Hok key' r' t').
Qed.

Lemma set_cache_ok key r now (cache : Cache) :
  cache_ok cache ->
  (exists d, key = ("ssl_" +:+ d)%string /\ ssl_result r)
  \/ (exists d, key = ("dmarc_" +:+ d)%string /\ dmarc_result r) ->
  cache_ok (_set_cache key r now cache).
Proof.
  intros Hok Hr key' r' t'. unfold _set_cache.
  intros [[<- [= <- <-]] | [_ H]]%lookup_insert_Some; [done |].
  by apply (Hok key' r' t').
Qed.

(** ** The two checks *)

Lemma graded_unreachable : graded 0 "F".
Proof. repeat split; intros; (done || lia). Qed.

Lemma graded_thresholds n :
  graded n (if n <? 0 then "F"%string
            else if n <? 7 then "F"%string
            else if n <? 30 then "C"%string
            else if n <? 60 then "B"%string
            else "A"%string).
Proof.
  destruct (Z.ltb_spec n 0), (Z.ltb_spec n 7), (Z.ltb_spec n 30), (Z.ltb_spec n 60);
    repeat split; intros; (done || lia).
Qed.

Create HintDb checks.
#[local] Hint Resolve graded_unreachable graded_thresholds : checks.
#[local] Hint Unfold ssl_result dmarc_result : checks.

Section Checks.
Context (env : Env) (domain : string) (cache : Cache).

(** What each check answers when it goes out to the network. *)
Section Lookup.
Hypothesis Hdomain : blank domain = false.

Lemma get_certificate_stats_fresh :
  no_fresh_entry env ("ssl_" +:+ domain) cache ->
  match tls_probe env domain with
  | ProbeDays n =>
      exists g, fst (get_certificate_stats env domain cache) = SslStats (0 <? n) n g
                /\ graded n g
  | ProbeNoExpiry | ProbeError =>
      fst (get_certificate_stats env domain cache) = SslStats false 0 "F"
  end.
Proof.
  intros Hmiss%get_cache_miss. unfold get_certificate_stats. rewrite Hdomain.
  destruct (_get_cache ("ssl_" +:+ domain) 300 (clock_get env) cache)
    as [cached cache'].
  simpl in Hmiss. subst cached.
  destruct (tls_probe env domain) as [| | n]; simpl; eauto with checks.
Qed.

Lemma check_dmarc_fresh :
  no_fresh_entry env ("dmarc_" +:+ domain) cache ->
  check_dmarc env domain cache
  = (DmarcInfo false None domain,
     _set_cache ("dmarc_" +:+ domain) (DmarcInfo false None domain) (clock_set env)
       (snd (_get_cache ("dmarc_" +:+ domain) 300 (clock_get env) cache))).
Proof.
  intros Hmiss%get_cache_miss. unfold check_dmarc. rewrite Hdomain.
  destruct (_get_cache ("dmarc_" +:+ domain) 300 (clock_get env) cache)
    as [cached cache'].
  simpl in Hmiss. subst cached. simpl.
  destruct (dns_resolve env ("_dmarc." +:+ domain)) as [| records]; [done |].
  by rewrite scan_records_none.
Qed.
End Lookup.

(** Both checks keep a well-formed cache well formed and answer with a
    result of their own kind. *)
Section Invariant.
Hypothesis Hok : cache_ok cache.

Lemma get_certificate_stats_ok :
  ssl_result (fst (get_certificate_stats env domain cache))
  /\ cache_ok (snd (get_certificate_stats env domain cache)).
Proof.
  unfold get_certificate_stats.
  destruct (blank domain); [split; [| done]; eauto 6 with checks |].
  pose proof (get_cache_ok ("ssl_" +:+ domain) 300 (clock_get env) cache Hok) as Hok'.
  pose proof (get_cache_hit ("ssl_" +:+ domain) 300 (clock_get env) cache) as Hhit.
  destruct (_get_cache ("ssl_" +:+ domain) 300 (clock_get env) cache)
    as [[r |] cache']; simpl in *.
  - split; [| done].
    destruct (Hhit r eq_refl) as (t & Ht & _).
    destruct (Hok _ _ _ Ht) as [(d & _ & Hr) | (d & E & _)]; [done |].
    by apply key_prefixes_differ in E.
  - assert (ssl_result
              match tls_probe env domain with
              | ProbeDays n =>
                  SslStats (0 <? n) n
                    (if n <? 0 then "F"%string
                     else if n <? 7 then "F"%string
                     else if n <? 30 then "C"%string
                     else if n <? 60 then "B"%string
                     else "A"%string)
              | ProbeNoExpiry | ProbeError => SslStats false 0 "F"
              end) as Hfresh
      by (destruct (tls_probe env domain); eauto 6 with checks).
    split; [done |]. apply set_cache_ok; [done |]. left. by exists domain.
Qed.

Lemma check_dmarc_ok :
  dmarc_result (fst (check_dmarc env domain cache))
  /\ cache_ok (snd (check_dmarc env domain cache)).
Proof.
  assert (dmarc_result (DmarcInfo false None domain)) as Hnone
    by (exists false, None, domain; by repeat split).
  unfold check_dmarc.
  destruct (blank domain); [by split |].
  pose proof (get_cache_ok ("dmarc_" +:+ domain) 300 (clock_get env) cache Hok) as Hok'.
  pose proof (get_cache_hit ("dmarc_" +:+ domain) 300 (clock_get env) cache) as Hhit.
  destruct (_get_cache ("dmarc_" +:+ domain) 300 (clock_get env) cache)
    as [[r |] cache']; simpl in *.
  - split; [| done].
    destruct (Hhit r eq_refl) as (t & Ht & _).
    destruct (Hok _ _ _ Ht) as [(d & E & _) | (d & _ & Hr)]; [| done].
    symmetry in E. by apply key_prefixes_differ in E.
  - assert (match dns_resolve env ("_dmarc." +:+ domain) with
            | DnsRecords records =>
                match scan_records domain records with
                | Some r => r
                | None => DmarcInfo false None domain
                end
            | DnsError => DmarcInfo false None domain
            end = DmarcInfo false None domain) as ->.
    { destruct (dns_resolve env ("_dmarc." +:+ domain)) as [| records]; [done |].
      by rewrite scan_records_none. }
    split; [done |]. apply set_cache_ok; [done |]. right. by exists domain.
Qed.
End Invariant.
End Checks.

(** Every cache the two checks can produce is well formed. *)
Lemma reachable_cache_ok cache : reachable cache -> cache_ok cache.
Proof.
  induction 1 as [| env domain cache _ IH | env domain cache _ IH].
  - intros key r t H. by rewrite lookup_empty in H.
  - by apply get_certificate_stats_ok.
  - by apply check_dmarc_ok.
Qed.

(** C8: whatever the cache holds, [get_certificate_stats] returns a
    certificate result whose grade is fixed by its days remaining: F below
    7 (expired included), C below 30, B below 60, A from 60 on.  When the
    certificate is actually fetched the days are those of the certificate,
    and any error on the way (as a certificate without expiry) gives
    [{valid: False, daysRemaining: 0, grade: 'F'}]; no path raises. *)
Theorem certificate_grading env domain cache :
  reachable cache ->
  (exists v d g, fst (get_certificate_stats env domain cache) = SslStats v d g
                 /\ graded d g)
  /\ (blank domain = false ->
      no_fresh_entry env ("ssl_" +:+ domain) cache ->
      (forall n, tls_probe env domain = ProbeDays n ->
         exists g, fst (get_certificate_stats env domain cache) = SslStats (0 <? n) n g
                   /\ graded n g)
      /\ (tls_probe env domain = ProbeError \/ tls_probe env domain = ProbeNoExpiry ->
          fst (get_certificate_stats env domain cache) = SslStats false 0 "F")).
Proof.
  intros Hok%reachable_cache_ok.
  split; [by apply get_certificate_stats_ok |].
  intros Hb Hmiss.
  pose proof (get_certificate_stats_fresh env domain cache Hb Hmiss) as H.
  split.
  - intros n Hn. by rewrite Hn in H.
  - intros [Hp | Hp]; by rewrite Hp in H.
Qed.

Lemma certificate_grading_witness :
  exists g, fst (get_certificate_stats lowercase_env "example.com" ∅) = SslStats true 29 g
            /\ graded 29 g.
Proof.
  destruct (certificate_grading lowercase_env "example.com" ∅ reach_init) as [_ H].
  destruct H as [H _].
  - reflexivity.
  - intros r t Hk. rewrite lookup_empty in Hk. discriminate Hk.
  - apply (H 29). reflexivity.
Defined.

(** ** DMARC: what a lookup can report *)

(** What [_get_cache] leaves in the cache was there before. *)
Lemma get_cache_entries key ttl now (cache : Cache) key' v :
  snd (_get_cache key ttl now cache) !! key' = Some v -> cache !! key' = Some v.
Proof.
  unfold _get_cache. destruct (cache !! key) as [[r t] |]; [| done].
  destruct (Qlt_bool (now - t) ttl); [done |]. simpl.
  by intros [_ H]%lookup_delete_Some.
Qed.

(** The entries of the cache after a check: those it had, a certificate
    result, or a DMARC result saying that no record was found. *)
Lemma get_certificate_stats_entries env domain (cache : Cache) key v :
  snd (get_certificate_stats env domain cache) !! key = Some v ->
  cache !! key = Some v \/ exists valid days grade t, v = (SslStats valid days grade, t).
Proof.
  unfold get_certificate_stats. destruct (blank domain); [by left |].
  pose proof (get_cache_entries ("ssl_" +:+ domain) 300 (clock_get env) cache key v) as Hsub.
  destruct (_get_cache ("ssl_" +:+ domain) 300 (clock_get env) cache) as [[r |] cache'];
    simpl in *; [by left; apply Hsub |].
  unfold _set_cache. intros [[_ <-] | [_ H]]%lookup_insert_Some; [right | by left; apply Hsub].
  destruct (tls_probe env domain); eauto.
Qed.

Lemma check_dmarc_entries env domain (cache : Cache) key v :
  snd (check_dmarc env domain cache) !! key = Some v ->
  cache !! key = Some v \/ exists t, v = (DmarcInfo false None domain, t).
Proof.
  unfold check_dmarc. destruct (blank domain); [by left |].
  pose proof (get_cache_entries ("dmarc_" +:+ domain) 300 (clock_get env) cache key v)
    as Hsub.
  destruct (_get_cache ("dmarc_" +:+ domain) 300 (clock_get env) cache) as [[r |] cache'];
    simpl in *; [by left; apply Hsub |].
  unfold _set_cache. intros [[_ <-] | [_ H]]%lookup_insert_Some; [right | by left; apply Hsub].
  destruct (dns_resolve env ("_dmarc." +:+ domain)) as [| records]; [by eauto |].
  rewrite scan_records_none. by eauto.
Qed.

Lemma reachable_dmarc_unseen cache : reachable cache -> dmarc_unseen cache.
Proof.
  induction 1 as [| env domain cache _ IH | env domain cache _ IH];
    intros key h p d t H.
  - by rewrite lookup_empty in H.
  - apply get_certificate_stats_entries in H as [H | (? & ? & ? & ? & [=])].
    by apply (IH key h p d t).
  - apply check_dmarc_entries in H as [H | (? & [= -> -> _ _])]; [| done].
    by apply (IH key h p d t).
Qed.

(** [str] of the [bytes] object holding a standard record, and what
    [check_dmarc] answers when that record is the one published. *)
Example dmarc_standard_record :
  str_bytes (list_byte_of_string "v=DMARC1; p=reject") = "b'v=DMARC1; p=reject'"%string
  /\ dns_resolve standard_env "_dmarc.example.com"
     = DnsRecords [[list_byte_of_string "v=DMARC1; p=reject"]]
  /\ fst (check_dmarc standard_env "example.com" ∅)
     = DmarcInfo false None "example.com".
Proof. repeat split. Qed.

(** C9: [check_dmarc] does not find the records the claim says it finds.
    The text it tests is joined from [str(r)] of [bytes] objects, which
    reads [b'...'], so the test for the version tag fails on every record:
    whatever the resolver answers and whatever earlier calls left in the
    cache, the result is [{has_dmarc: False, policy: None}]. *)
Theorem dmarc_check env domain cache :
  reachable cache ->
  exists d, fst (check_dmarc env domain cache) = DmarcInfo false None d.
Proof.
  intros Hr.
  pose proof (reachable_cache_ok cache Hr) as Hok.
  pose proof (reachable_dmarc_unseen cache Hr) as Hun.
  destruct (check_dmarc_ok env domain cache Hok) as [(h & p & d & E & _) _].
  exists d. rewrite E.
  assert (h = false /\ p = None) as [-> ->]; [| done].
  revert E. unfold check_dmarc. destruct (blank domain); [by intros [= <- <- _] |].
  pose proof (get_cache_hit ("dmarc_" +:+ domain) 300 (clock_get env) cache) as Hhit.
  destruct (_get_cache ("dmarc_" +:+ domain) 300 (clock_get env) cache)
    as [[r |] cache']; simpl in *.
  - intros ->. destruct (Hhit _ eq_refl) as (t & Ht & _). by apply (Hun _ _ _ _ _ Ht).
  - destruct (dns_resolve env ("_dmarc." +:+ domain)) as [| records];
      [by intros [= <- <- _] |].
    rewrite scan_records_none. by intros [= <- <- _].
Qed.

Lemma dmarc_check_witness :
  exists d, fst (check_dmarc standard_env "example.com" ∅) = DmarcInfo false None d.
Proof. apply (dmarc_check standard_env "example.com" ∅). apply reach_init. Defined.

(** * Properties that depend on rounding

    What follows is proved of the calculators on doubles, [Double]. *)

Section Binary64.
Import Double.

(** ** Powers of two *)

Lemma pow2_Qpower e : (pow2 e == 2 ^ e)%Q.
Proof.
  destruct e as [| p | p]; simpl pow2.
  - reflexivity.
  - apply (Zpower_Qpower 2 (Zpos p)). lia.
  - change (2 ^ Zneg p)%Q with (/ (2 ^ Zpos p))%Q.
    rewrite <- (Zpower_Qpower 2 (Zpos p)) by lia.
    rewrite <- Pos2Z.inj_pow. reflexivity.
Qed.

Lemma pow2_pos e : (0 < pow2 e)%Q.
Proof. rewrite pow2_Qpower. by apply Qpower_0_lt. Qed.

Lemma pow2_add a b : (pow2 (a + b) == pow2 a * pow2 b)%Q.
Proof. rewrite !pow2_Qpower. by apply Qpower_plus. Qed.

Lemma pow2_le a b : a <= b -> (pow2 a <= pow2 b)%Q.
Proof. intros H. rewrite !pow2_Qpower. by apply Qpower_le_compat_l. Qed.

Lemma pow2_lt a b : a < b -> (pow2 a < pow2 b)%Q.
Proof. intros H. rewrite !pow2_Qpower. by apply Qpower_lt_compat_l. Qed.

Lemma pow2_inject e : 0 <= e -> (pow2 e == inject_Z (2 ^ e))%Q.
Proof. destruct e; (done || lia). Qed.

Lemma Qlt_mult_cancel (x p d : Q) : (0 < d)%Q -> (x * d < p * d)%Q -> (x < p)%Q.
Proof. intros Hd H. by apply (Qmult_lt_r _ _ d Hd). Qed.

Lemma Qle_mult_cancel (x p d : Q) : (0 < d)%Q -> (x * d <= p * d)%Q -> (x <= p)%Q.
Proof. intros Hd H. by apply (Qmult_le_r _ _ d Hd). Qed.

Lemma inject_Z_log2 n :
  0 < n -> (pow2 (Z.log2 n) <= inject_Z n < pow2 (Z.log2 n + 1))%Q.
Proof.
  intros Hn. destruct (Z.log2_spec n Hn) as [H1 H2].
  pose proof (Z.log2_nonneg n) as H0.
  rewrite !pow2_inject by lia. rewrite <- Zle_Qle, <- Zlt_Qlt.
  split; [done |]. by rewrite <- Z.add_1_r in H2.
Qed.

Lemma ilog2_spec x : (0 < x)%Q -> (pow2 (ilog2 x) <= x < pow2 (ilog2 x + 1))%Q.
Proof.
  intros Hx. destruct x as [n d].
  assert (0 < n) as Hn by (unfold Qlt in Hx; simpl in Hx; lia).
  unfold ilog2. simpl Qnum. simpl Qden.
  set (ln := Z.log2 n). set (ld := Z.log2 (Zpos d)). set (k := ln - ld).
  destruct (inject_Z_log2 n Hn) as [N1 N2]. fold ln in N1, N2.
  destruct (inject_Z_log2 (Zpos d) eq_refl) as [D1 D2]. fold ld in D1, D2.
  assert (0 < inject_Z (Zpos d))%Q as HD by (by rewrite <- (Zlt_Qlt 0)).
  assert ((n # d) * inject_Z (Zpos d) == inject_Z n)%Q as E.
  { rewrite (Qmake_Qdiv n d). field. intros H. rewrite H in HD. by apply Qlt_irrefl in HD. }
  pose proof (pow2_pos (k + 1)) as Hk1. pose proof (pow2_pos (k - 1)) as Hk0.
  assert (pow2 (ln + 1) == pow2 (k + 1) * pow2 ld)%Q as E1
    by (replace (ln + 1) with (k + 1 + ld) by (unfold k; lia); apply pow2_add).
  assert (pow2 ln == pow2 (k - 1) * pow2 (ld + 1))%Q as E0
    by (replace ln with (k - 1 + (ld + 1)) at 1 by (unfold k; lia); apply pow2_add).
  assert (n # d < pow2 (k + 1))%Q as Hup.
  { apply (Qlt_mult_cancel _ _ (inject_Z (Zpos d)) HD). rewrite E.
    apply Qlt_le_trans with (pow2 (ln + 1)); [done |]. rewrite E1.
    apply Qmult_le_l; done. }
  assert (pow2 (k - 1) <= n # d)%Q as Hlow.
  { apply (Qle_mult_cancel _ _ (inject_Z (Zpos d)) HD). rewrite E.
    apply Qle_trans with (pow2 ln); [| done]. rewrite E0.
    apply Qmult_le_l; [done |]. by apply Qlt_le_weak. }
  destruct (Qle_bool (pow2 k) (n # d)) eqn:Ek.
  - apply Qle_bool_iff in Ek. by split.
  - replace (k - 1 + 1) with k by lia. split; [done |].
    apply Qnot_le_lt. intros H. apply Qle_bool_iff in H. congruence.
Qed.

Lemma ilog2_le x k : (0 < x)%Q -> (x <= pow2 k)%Q -> ilog2 x <= k.
Proof.
  intros Hx Hk. destruct (ilog2_spec x Hx) as [H _].
  destruct (Z.le_gt_cases (ilog2 x) k) as [| Hgt]; [done |].
  apply pow2_lt in Hgt. lra.
Qed.


(** ** Rounding to the nearest double *)

Lemma Qabs_pos_nonzero x : ~ (x == 0)%Q -> (0 < Qabs x)%Q.
Proof.
  intros Hx. destruct (Qlt_le_dec 0 (Qabs x)) as [| H]; [done |].
  exfalso. apply Hx. pose proof (Qabs_nonneg x).
  apply Qabs_Qle_condition in H. lra.
Qed.



Lemma round_to_double_nonzero x :
  ~ (x == 0)%Q ->
  round_to_double x
  = let y := (inject_Z (py_round (x / pow2 (exponent x))) * pow2 (exponent x))%Q in
    if Qle_bool (pow2 1024) (Qabs y) then Infinity (Qlt_bool x 0) else Finite (Qred y).
Proof.
  intros Hx. unfold round_to_double.
  destruct (Qeq_bool x 0) eqn:E; [| done].
  by apply Qeq_bool_iff in E.
Qed.

(** A value of magnitude at most [n * 2 ** k], a double, is rounded to a
    double of magnitude at most [n * 2 ** k]. *)
Lemma round_to_double_below x n k :
  0 <= n < 2 ^ 53 -> -1074 <= k -> (inject_Z n * pow2 k < pow2 1024)%Q ->
  (Qabs x <= inject_Z n * pow2 k)%Q ->
  exists y, round_to_double x = Finite y /\ (Qabs y <= inject_Z n * pow2 k)%Q.
Proof.
  intros Hn Hk Hfin Hx. pose proof (pow2_pos k) as Hpk.
  assert (0 <= inject_Z n < pow2 53)%Q as Hn'.
  { rewrite pow2_inject by lia. rewrite <- (Zle_Qle 0), <- Zlt_Qlt. lia. }
  destruct (Qeq_dec x 0) as [E0 | Hnz].
  - exists 0%Q. split.
    + unfold round_to_double. by rewrite (proj2 (Qeq_bool_iff x 0) E0).
    + change (Qabs 0) with 0%Q. apply Qmult_le_0_compat; lra.
  - rewrite (round_to_double_nonzero x Hnz).
    set (e := exponent x). cbv zeta.
    set (m := py_round (x / pow2 e)).
    assert (inject_Z n * pow2 k < pow2 (53 + k))%Q as Hlt.
    { rewrite (pow2_add 53 k). apply Qmult_lt_compat_r; lra. }
    assert (e <= k) as Hek.
    { unfold e, exponent.
      assert (ilog2 (Qabs x) < 53 + k); [| lia].
      destruct (ilog2_spec _ (Qabs_pos_nonzero x Hnz)) as [Hl _].
      destruct (Z.lt_ge_cases (ilog2 (Qabs x)) (53 + k)) as [| Hge]; [done |].
      apply pow2_le in Hge. lra. }
    pose proof (pow2_pos e) as He.
    assert (pow2 k == inject_Z (2 ^ (k - e)) * pow2 e)%Q as Ek.
    { rewrite <- pow2_inject by lia. rewrite <- pow2_add. by replace (k - e + e) with k by lia. }
    assert (inject_Z n * pow2 k == inject_Z (n * 2 ^ (k - e)) * pow2 e)%Q as Enk.
    { rewrite inject_Z_mult, Ek. ring. }
    assert (- (n * 2 ^ (k - e)) <= m <= n * 2 ^ (k - e)) as Hm.
    { apply py_round_between. apply Qabs_Qle_condition in Hx.
      rewrite inject_Z_opp.
      assert (x == x / pow2 e * pow2 e)%Q as E by (field; lra).
      set (s := (x / pow2 e)%Q) in *. set (P := inject_Z (n * 2 ^ (k - e))) in *.
      rewrite Enk, E in Hx. split; nra. }
    assert (Qabs (inject_Z m * pow2 e) <= inject_Z n * pow2 k)%Q as Hy.
    { apply Qabs_Qle_condition. rewrite Enk.
      destruct Hm as [Hm1 Hm2]. rewrite Zle_Qle in Hm1, Hm2. rewrite inject_Z_opp in Hm1.
      set (P := inject_Z (n * 2 ^ (k - e))) in *. set (M := inject_Z m) in *.
      split; nra. }
    destruct (Qle_bool (pow2 1024) (Qabs (inject_Z m * pow2 e))) eqn:Ov.
    + exfalso. apply Qle_bool_iff in Ov. lra.
    + eexists. split; [reflexivity |]. by rewrite Qred_correct.
Qed.

(** In particular for a power of two. *)
Lemma round_to_double_bound x k :
  -1074 <= k <= 1023 -> (Qabs x <= pow2 k)%Q ->
  exists y, round_to_double x = Finite y /\ (Qabs y <= pow2 k)%Q.
Proof.
  intros Hk Hx.
  destruct (round_to_double_below x 1 k) as (y & Hy & Hb); [lia | lia | | | ].
  - change (inject_Z 1) with 1%Q. rewrite Qmult_1_l. apply pow2_lt. lia.
  - change (inject_Z 1) with 1%Q. by rewrite Qmult_1_l.
  - exists y. split; [done |]. change (inject_Z 1) with 1%Q in Hb. by rewrite Qmult_1_l in Hb.
Qed.

(** An integer bound below [2 ** 53]. *)
Lemma round_to_double_within x n :
  0 <= n < 2 ^ 53 -> (Qabs x <= inject_Z n)%Q ->
  exists y, round_to_double x = Finite y /\ (Qabs y <= inject_Z n)%Q.
Proof.
  intros Hn Hx.
  assert (inject_Z n * pow2 0 == inject_Z n)%Q as E by (change (pow2 0) with 1%Q; ring).
  destruct (round_to_double_below x n 0) as (y & Hy & Hb); [done | lia | | by rewrite E | ].
  - rewrite E. apply Qlt_trans with (pow2 53); [| apply pow2_lt; lia].
    rewrite pow2_inject by lia. rewrite <- Zlt_Qlt. lia.
  - exists y. split; [done |]. by rewrite E in Hb.
Qed.

Lemma Qdiv_zero (x p : Q) : (x == 0 -> x / p == 0)%Q.
Proof. intros E. unfold Qdiv. rewrite E. apply Qmult_0_l. Qed.

(** What a finite result of rounding is. *)
Lemma round_to_double_finite x y :
  round_to_double x = Finite y ->
  (y == inject_Z (py_round (x / pow2 (exponent x))) * pow2 (exponent x))%Q.
Proof.
  destruct (Qeq_dec x 0) as [E0 | Hnz].
  - unfold round_to_double. rewrite (proj2 (Qeq_bool_iff x 0) E0). intros [= <-].
    rewrite (py_round_proper _ 0), Qmult_0_l; [done |].
    by apply Qdiv_zero.
  - rewrite (round_to_double_nonzero x Hnz). cbv zeta.
    destruct (Qle_bool _ _); [done |]. intros [= <-]. apply Qred_correct.
Qed.


Lemma round_to_double_nonneg x y :
  (0 <= x)%Q -> round_to_double x = Finite y -> (0 <= y)%Q.
Proof.
  intros Hx Hy. rewrite (round_to_double_finite x y Hy).
  pose proof (pow2_pos (exponent x)) as He.
  apply Qmult_le_0_compat; [| lra].
  rewrite <- (Zle_Qle 0). rewrite <- (py_round_inject 0). apply py_round_mono.
  apply Qle_shift_div_l; [done |]. change (inject_Z 0) with 0%Q. lra.
Qed.




(** ** The weighted mean on doubles *)
























(** ** The cloud status on doubles *)





(** ** The cloud total stays finite *)

Lemma Qabs_product_le (x y a b : Q) :
  (Qabs x <= a -> Qabs y <= b -> Qabs (x * y) <= a * b)%Q.
Proof.
  intros Hx Hy. rewrite Qabs_Qmult.
  pose proof (Qabs_nonneg x). pose proof (Qabs_nonneg y).
  apply Qmult_le_compat_nonneg; split; done.
Qed.

Lemma cloud_fold_bounded scores criteria P : forall t0 j,
  0 <= P -> 0 <= j ->
  (forall c, c ∈ criteria ->
     Z.abs (default 0 (scores !! c_id c)) <= 5
     /\ (Qabs (default 0%Q (c_points c)) <= inject_Z P)%Q) ->
  (j + Z.of_nat (length criteria)) * P < 2 ^ 53 ->
  (Qabs t0 <= inject_Z (j * P))%Q ->
  exists t,
    fold_left (Double.cloud_step scores) criteria (Some (Finite t0)) = Some (Finite t)
    /\ (Qabs t <= inject_Z ((j + Z.of_nat (length criteria)) * P))%Q.
Proof.
  induction criteria as [| c criteria IH]; intros t0 j HP Hj Hc Hlen Ht0.
  - exists t0. split; [done |]. simpl length. by replace (j + Z.of_nat 0) with j by lia.
  - destruct (Hc c (list_elem_of_here _ _)) as [Hm Hp].
    simpl length in *. rewrite Nat2Z.inj_succ in *.
    cbn [fold_left]. unfold Double.cloud_step at 2. cbn [mbind option_bind].
    set (m := default 0 (scores !! c_id c)) in *.
    set (p := default 0%Q (c_points c)) in *.
    assert (0 <= P < 2 ^ 53) as HP53 by nia.
    unfold int_truediv. simpl (5 =? 0). cbv iota.
    destruct (round_to_double_within (inject_Z m / inject_Z 5) 1) as (level & -> & Hlevel);
      [lia | |].
    { change (inject_Z 5) with 5%Q. change (inject_Z 1) with 1%Q.
      assert (inject_Z m / 5 == inject_Z m * (1 # 5))%Q as -> by field.
      apply Qabs_Qle_condition.
      assert (-5 <= inject_Z m <= 5)%Q as [H1 H2].
      { change (-5)%Q with (inject_Z (-5)). change 5%Q with (inject_Z 5).
        rewrite <- !Zle_Qle. lia. }
      split; lra. }
    cbn [mbind option_bind]. unfold of_number.
    destruct (round_to_double_within p P) as (points & -> & Hpoints); [done | done |].
    cbn [mbind option_bind mul add].
    destruct (round_to_double_within (level * points) P) as (term & -> & Hterm); [done | |].
    { change (inject_Z 1) with 1%Q in Hlevel.
      pose proof (Qabs_product_le level points 1 (inject_Z P) Hlevel Hpoints) as H.
      by rewrite Qmult_1_l in H. }
    destruct (round_to_double_within (t0 + term) ((j + 1) * P)) as (t1 & -> & Ht1); [nia | |].
    { eapply Qle_trans; [apply Qabs_triangle |].
      replace ((j + 1) * P) with (j * P + P) by lia. rewrite inject_Z_plus. lra. }
    destruct (IH t1 (j + 1) HP ltac:(lia)) as (t & -> & Ht).
    + intros c' Hc'. apply Hc. by apply list_elem_of_further.
    + by replace (j + 1 + Z.of_nat (length criteria))
        with (j + Z.succ (Z.of_nat (length criteria))) by lia.
    + done.
    + exists t. split; [done |].
      by replace (j + Z.succ (Z.of_nat (length criteria)))
        with (j + 1 + Z.of_nat (length criteria)) by lia.
Qed.

(** With scores of magnitude at most 5 and points of magnitude at most
    [P], the total of [n] criteria is a finite double of magnitude at most
    [n * P], as long as that is below [2 ** 53]. *)
Lemma cloud_total_score_bounded scores criteria P :
  0 <= P ->
  (forall c, c ∈ criteria ->
     Z.abs (default 0 (scores !! c_id c)) <= 5
     /\ (Qabs (default 0%Q (c_points c)) <= inject_Z P)%Q) ->
  Z.of_nat (length criteria) * P < 2 ^ 53 ->
  exists t,
    Double.cloud_total_score scores criteria = Some (Finite t)
    /\ (Qabs t <= inject_Z (Z.of_nat (length criteria) * P))%Q
    /\ (Qabs t <= pow2 1000)%Q.
Proof.
  intros HP Hc Hlen.
  destruct (cloud_fold_bounded scores criteria P 0 0 HP ltac:(lia) Hc) as (t & Ht & Hb).
  - by rewrite Z.add_0_l.
  - done.
  - rewrite Z.add_0_l in Hb. exists t. split; [done |]. split; [done |].
    eapply Qle_trans; [exact Hb |].
    apply Qle_trans with (pow2 53); [| apply pow2_le; lia].
    rewrite pow2_inject by lia. rewrite <- Zle_Qle. lia.
Qed.

(** ** Impact and likelihood on doubles *)

Lemma py_sum_bounded (vals : list Z) (B : Z) :
  Forall (fun a => Z.abs a <= B) vals ->
  Z.abs (py_sum vals) <= B * Z.of_nat (length vals).
Proof.
  unfold py_sum. rewrite py_sum_foldr, Z.add_0_l.
  induction 1 as [| a vals Ha _ IH]; simpl foldr; simpl length; lia.
Qed.

(** The clamp of lines 131-132 gives a value between 1 and 5 whatever the
    mean. *)
Lemma maturity_to_risk_range (avg_score : Q) :
  (Qabs avg_score <= pow2 1000)%Q ->
  exists risk,
    maturity_to_risk (Finite avg_score) = Some (Finite risk) /\ (1 <= risk <= 5)%Q.
Proof.
  intros Havg. unfold maturity_to_risk.
  assert (of_number (12 # 10) = Some (Finite (5404319552844595 # 4503599627370496))) as ->
    by (vm_compute; reflexivity).
  cbn [mbind option_bind div].
  change (Qeq_bool (5404319552844595 # 4503599627370496) 0) with false. cbv iota.
  pose proof (pow2_pos 1000) as Hp.
  assert (pow2 1001 == 2 * pow2 1000)%Q as E1 by (by rewrite (pow2_add 1 1000)).
  assert (8 <= pow2 1000)%Q as H1 by (apply (pow2_le 3 1000); lia).
  destruct (round_to_double_bound (avg_score / (5404319552844595 # 4503599627370496)) 1000)
    as (quotient & -> & Hq); [lia | |].
  { apply Qabs_Qle_condition in Havg. apply Qabs_Qle_condition.
    assert (avg_score / (5404319552844595 # 4503599627370496)
            == avg_score * (4503599627370496 # 5404319552844595))%Q as -> by field.
    split; lra. }
  cbn [mbind option_bind sub neg add]. apply Qabs_Qle_condition in Hq.
  destruct (round_to_double_bound (6 + - quotient) 1001) as (y & -> & _); [lia | |].
  { apply Qabs_Qle_condition. split; lra. }
  unfold int_min, int_max. cbn [lt].
  change (inject_Z 5) with 5%Q. change (inject_Z 1) with 1%Q.
  destruct (Qlt_bool y 5) eqn:E5; cbn [lt].
  - destruct (Qlt_bool 1 y) eqn:E1'; eexists; (split; [reflexivity |]).
    + apply Qlt_bool_true in E5, E1'. lra.
    + lra.
  - change (Qlt_bool 1 5) with true. cbv iota. eexists. split; [reflexivity | lra].
Qed.

(** X2: [calc_impact_likelihood], computed on doubles as the source computes
    it, returns an impact and a likelihood between 1 and 5 for every answers
    map whose values have a magnitude of at most [2 ** 1000], far inside
    the range of doubles; no operation raises there. *)
Theorem impact_likelihood_range answers questions osint_results :
  (forall k a, answers !! k = Some (Some a) -> Z.abs a <= 2 ^ 1000) ->
  exists impact likelihood,
    Double.calc_impact_likelihood answers questions osint_results
    = Some (Finite impact, Finite likelihood)
    /\ (1 <= impact <= 5)%Q /\ (1 <= likelihood <= 5)%Q.
Proof.
  intros Hrange. unfold Double.calc_impact_likelihood.
  lazymatch goal with
  | |- context [if bool_decide (answers = ∅) then ?a else ?b] =>
      set (base := if bool_decide (answers = ∅) then a else b)
  end.
  assert (exists risk, base = Some (Finite risk, Finite risk) /\ (1 <= risk <= 5)%Q)
    as (risk & -> & Hrisk).
  { unfold base. destruct (bool_decide (answers = ∅)); [exists 3%Q; split; [done | lra] |].
    destruct (answer_vals answers) as [| a vals] eqn:Evals; [exists 3%Q; split; [done | lra] |].
    rewrite <- Evals.
    assert (Forall (fun a => Z.abs a <= 2 ^ 1000) (answer_vals answers)) as Hall.
    { apply Forall_forall. intros b [k Hk]%answer_vals_elem. by apply (Hrange k). }
    pose proof (py_sum_bounded _ _ Hall) as Hsum.
    assert (0 < Z.of_nat (length (answer_vals answers))) as Hlen
      by (rewrite Evals; simpl length; lia).
    set (total := py_sum (answer_vals answers)) in *.
    set (count := Z.of_nat (length (answer_vals answers))) in *.
    unfold int_truediv. destruct (count =? 0) eqn:Ec; [apply Z.eqb_eq in Ec; lia |].
    destruct (round_to_double_bound (inject_Z total / inject_Z count) 1000)
      as (avg_score & -> & Havg); [lia | |].
    { rewrite pow2_inject by lia.
      assert (0 < inject_Z count)%Q as Hc by (by rewrite <- (Zlt_Qlt 0)).
      apply Qabs_Qle_condition.
      assert (- (2 ^ 1000 * count) <= total <= 2 ^ 1000 * count) as [H1 H2] by lia.
      rewrite Zle_Qle in H1, H2. rewrite inject_Z_opp, inject_Z_mult in H1.
      rewrite inject_Z_mult in H2.
      split.
      - apply Qle_shift_div_l; [done |]. lra.
      - apply Qle_shift_div_r; [done |]. lra. }
    cbn [mbind option_bind].
    destruct (maturity_to_risk_range avg_score Havg) as (risk & -> & Hrisk).
    exists risk. by split. }
  cbn [mbind option_bind].
  destruct (ransomware_hit osint_results).
  - exists risk, 5%Q. split; [reflexivity |]. split; lra.
  - exists risk, risk. split; [reflexivity |]. split; lra.
Qed.

Lemma impact_likelihood_range_witness :
  exists impact likelihood,
    Double.calc_impact_likelihood some_answers some_questions (Some leak_osint)
    = Some (Finite impact, Finite likelihood)
    /\ (1 <= impact <= 5)%Q /\ (1 <= likelihood <= 5)%Q.
Proof.
  apply (impact_likelihood_range some_answers some_questions (Some leak_osint)).
  intros k a Hk. unfold some_answers in Hk.
  repeat (apply lookup_insert_Some in Hk as [[_ Hk] | [_ Hk]];
          [simplify_eq; vm_compute; discriminate |]).
  apply lookup_singleton_Some in Hk as [_ Hk]. discriminate Hk.
Defined.

End Binary64.

(** ** The rounding model against the Standard Library's specification *)

(** On every pair of [sample_doubles], the model's sum, product and
    quotient are the doubles that [SpecFloat] computes. *)
Example operations_agree_on_samples :
  forallb (fun a => forallb (operations_agree a) sample_doubles) sample_doubles = true.
Proof. vm_compute. reflexivity. Qed.

(** The sum of the cloud loop on [boundary_criteria], computed by
    [SpecFloat]: [0 + 3 / 5 * 1 + 3 / 5 * 24]. *)
Example boundary_total_by_specification :
  let level := SpecFloat.SFdiv 53 1024 (spec_double 3 0) (spec_double 5 0) in
  let earned points := SpecFloat.SFmul 53 1024 level (spec_double points 0) in
  Some (of_spec (SpecFloat.SFadd 53 1024
                   (SpecFloat.SFadd 53 1024 (spec_double 0 0) (earned 1)) (earned 24)))
  = Double.cloud_total_score boundary_scores boundary_criteria.
Proof. vm_compute. reflexivity. Qed.

(** ** Doubles against exact arithmetic *)

(** The two criteria of [boundary_criteria] earn exactly 15 points; the
    loop adds 0.6 and 14.399999999999999 and obtains 14.999999999999998,
    which is below the threshold.  A single criterion of 15 points at
    level 5 earns the double 15 and is not rejected. *)
Example cloud_boundary_on_doubles :
  (cloud_total_score boundary_scores boundary_criteria == 15)%Q
  /\ Double.cloud_total_score boundary_scores boundary_criteria
     = Some (Double.Finite (8444249301319679 # 562949953421312))
  /\ status <$> Double.calc_cloud_vulnerability boundary_scores boundary_criteria None
     = Some "REJECT (Critical Risk)"%string
  /\ status <$> Double.calc_cloud_vulnerability heavy_scores edge_criteria None
     = Some "Restricted (Deficient)"%string.
Proof. split; [reflexivity |]. repeat split; vm_compute; reflexivity. Qed.

(** The weighted mean of [tie_answers] is exactly 72.5 per cent; on doubles
    it comes out as 72.50000000000001 and is rounded to 73, where exact
    arithmetic rounds the tie to 72. *)
Example calc_vulnerability_tie :
  (weighted_mean tie_answers tie_questions * 100 == 145 # 2)%Q
  /\ Double.calc_vulnerability tie_answers tie_questions None = Some 73
  /\ calc_vulnerability tie_answers tie_questions None = 72.
Proof. split; [reflexivity |]. split; [vm_compute; reflexivity | reflexivity]. Qed.

(** An answer beyond the range of doubles: the mean raises
    [OverflowError]. *)
Example impact_likelihood_overflow :
  Double.calc_impact_likelihood {[ 1 := Some (10 ^ 400) ]} [] None = None.
Proof. vm_compute. reflexivity. Qed.

(** * Further properties of the scoring functions *)

Lemma Qdiv_le_mono (a b w : Q) : (0 < w)%Q -> (a <= b)%Q -> (a / w <= b / w)%Q.
Proof.
  intros Hw Hab. unfold Qdiv. apply Qmult_le_compat_r; [done |].
  apply Qlt_le_weak, Qinv_lt_0_compat, Hw.
Qed.

Lemma osint_floor_int_between osint lo v :
  lo <= v <= 100 -> lo <= osint_floor_int osint v <= 100.
Proof. intros H. case_floors osint; lia. Qed.

(** [calc_vulnerability] reads the answers only at the ids of the questions. *)
Lemma vuln_fold_ext answers answers' questions acc :
  (forall q, q ∈ questions -> answers !! q_id q = answers' !! q_id q) ->
  fold_left (vuln_step answers) questions acc
  = fold_left (vuln_step answers') questions acc.
Proof.
  revert acc. induction questions as [| q questions IH]; intros acc H; [done |].
  simpl. rewrite IH by (intros q' Hq'; apply H; by apply list_elem_of_further).
  unfold vuln_step. by rewrite (H q (list_elem_of_here _ _)).
Qed.

Lemma answered_ext answers answers' questions :
  (forall q, q ∈ questions -> answers !! q_id q = answers' !! q_id q) ->
  answered answers questions = answered answers' questions.
Proof.
  induction questions as [| q questions IH]; intros H; [done |].
  simpl. rewrite (H q (list_elem_of_here _ _)).
  rewrite IH by (intros q' Hq'; apply H; by apply list_elem_of_further). done.
Qed.

(** X3: [calc_vulnerability] looks at the answers only under the ids of the
    questions: two answer maps that agree there give the same result, so
    answers to questions that are not asked change nothing. *)
Theorem calc_vulnerability_reads_questions_only answers answers' questions osint_results :
  (forall q, q ∈ questions -> answers !! q_id q = answers' !! q_id q) ->
  calc_vulnerability answers questions osint_results
  = calc_vulnerability answers' questions osint_results.
Proof.
  intros H.
  destruct (decide (answered answers questions = [])) as [E | E].
  - rewrite !calc_vulnerability_unmatched; [done | | done].
    by rewrite <- (answered_ext answers answers').
  - assert (answers <> ∅) as Hne.
    { intros ->. apply E. apply answered_nil. intros q _. left. apply lookup_empty. }
    assert (answers' <> ∅) as Hne'.
    { intros ->. apply E. rewrite (answered_ext answers ∅) by done.
      apply answered_nil. intros q _. left. apply lookup_empty. }
    unfold calc_vulnerability.
    rewrite !bool_decide_eq_false_2 by done.
    by rewrite (vuln_fold_ext answers answers').
Qed.

Lemma calc_vulnerability_reads_questions_only_witness :
  calc_vulnerability (<[42 := Some 1]> some_answers) some_questions None
  = calc_vulnerability some_answers some_questions None.
Proof.
  apply (calc_vulnerability_reads_questions_only
           (<[42 := Some 1]> some_answers) some_answers some_questions None).
  intros q Hq. unfold some_questions in Hq.
  repeat (apply elem_of_cons in Hq as [-> | Hq]); try reflexivity.
  by apply elem_of_nil in Hq.
Defined.

Lemma contribution_bounds (l : list (Question * Z)) :
  Forall (fun qa => 1 <= snd qa <= 5) l ->
  ((1 # 5) * sumQ (map (fun qa => inject_Z (weight_of (fst qa))) l)
   <= sumQ (map (fun qa => inject_Z (weight_of (fst qa)) * (inject_Z (6 - snd qa) / 5)) l)
   <= sumQ (map (fun qa => inject_Z (weight_of (fst qa))) l))%Q.
Proof.
  induction 1 as [| [q a] l [Ha1 Ha5] _ IH]; simpl in *; [lra |].
  pose proof (weight_of_pos q) as Hw. rewrite Zle_Qle in Hw.
  change (inject_Z 1) with 1%Q in Hw.
  assert (1 <= inject_Z (6 - a) <= 5)%Q as [H1 H5].
  { split.
    - change 1%Q with (inject_Z 1). rewrite <- Zle_Qle. lia.
    - change 5%Q with (inject_Z 5). rewrite <- Zle_Qle. lia. }
  set (w := inject_Z (weight_of q)) in *. set (c := inject_Z (6 - a)) in *.
  assert (c / 5 == c * (1 # 5))%Q as -> by field.
  split; nra.
Qed.

(** X1: With every answer between 1 and 5 the standard-track vulnerability
    lies between 20 and 100, whatever the questions and the OSINT results. *)
Theorem calc_vulnerability_range answers questions osint_results :
  (forall k a, answers !! k = Some (Some a) -> 1 <= a <= 5) ->
  20 <= calc_vulnerability answers questions osint_results <= 100.
Proof.
  intros Hrange.
  destruct (decide (answered answers questions = [])) as [E | E].
  { rewrite calc_vulnerability_unmatched by done. lia. }
  destruct (decide (answers = ∅)) as [-> | Hne].
  { unfold calc_vulnerability. rewrite bool_decide_eq_true_2 by done. lia. }
  rewrite calc_vulnerability_mean by done.
  apply osint_floor_int_between, py_round_between.
  change (inject_Z 20) with 20%Q. change (inject_Z 100) with 100%Q.
  pose proof (weight_sum_pos _ E) as Hpos.
  assert (Forall (fun qa => 1 <= snd qa <= 5) (answered answers questions)) as Hall.
  { apply Forall_forall. intros [q a] [_ Ha]%answered_elem. simpl. eauto. }
  destruct (contribution_bounds _ Hall) as [Hlo Hhi].
  unfold weighted_mean.
  set (W := sumQ (map (fun qa => inject_Z (weight_of (fst qa))) (answered answers questions)))
    in *.
  set (N := sumQ _) in *.
  pose proof (Qdiv_le_mono _ _ W Hpos Hlo) as H1.
  pose proof (Qdiv_le_mono _ _ W Hpos Hhi) as H2.
  assert ((1 # 5) * W / W == 1 # 5)%Q as E1 by (field; lra).
  assert (W / W == 1)%Q as E2 by (field; lra).
  rewrite E1 in H1. rewrite E2 in H2. lra.
Qed.

Lemma calc_vulnerability_range_witness :
  20 <= calc_vulnerability some_answers some_questions (Some bad_osint) <= 100.
Proof.
  apply (calc_vulnerability_range some_answers some_questions (Some bad_osint)).
  intros k a Hk. unfold some_answers in Hk.
  repeat (apply lookup_insert_Some in Hk as [[_ Hk] | [_ Hk]]; [simplify_eq; lia |]).
  apply lookup_singleton_Some in Hk as [_ Hk]. discriminate Hk.
Defined.

Lemma answered_nonempty answers questions :
  answered answers questions <> [] -> answers <> ∅.
Proof.
  intros E ->. apply E, answered_nil. intros q _. left. apply lookup_empty.
Qed.

Lemma answered_improved answers answers' questions :
  (forall q, q ∈ questions ->
     (exists a a', answers !! q_id q = Some (Some a)
                   /\ answers' !! q_id q = Some (Some a') /\ a <= a')
     \/ ((answers !! q_id q = None \/ answers !! q_id q = Some None)
         /\ (answers' !! q_id q = None \/ answers' !! q_id q = Some None))) ->
  (sumQ (map (fun qa => inject_Z (weight_of (fst qa))) (answered answers' questions))
   == sumQ (map (fun qa => inject_Z (weight_of (fst qa))) (answered answers questions)))%Q
  /\ (sumQ (map (fun qa => inject_Z (weight_of (fst qa)) * (inject_Z (6 - snd qa) / 5))
               (answered answers' questions))
      <= sumQ (map (fun qa => inject_Z (weight_of (fst qa)) * (inject_Z (6 - snd qa) / 5))
                  (answered answers questions)))%Q
  /\ (answered answers questions = [] <-> answered answers' questions = []).
Proof.
  induction questions as [| q questions IH]; intros H.
  { simpl. repeat split; lra. }
  destruct IH as (IHw & IHn & IHe).
  { intros q' Hq'. apply H. by apply list_elem_of_further. }
  simpl.
  destruct (H q (list_elem_of_here _ _))
    as [(a & a' & -> & -> & Hle) | [[-> | ->] [-> | ->]]]; simpl; try done.
  split; [by rewrite IHw |]. split; [| done].
  pose proof (weight_of_pos q) as Hw. rewrite Zle_Qle in Hw.
  change (inject_Z 1) with 1%Q in Hw.
  assert (inject_Z (6 - a') <= inject_Z (6 - a))%Q as Hc by (rewrite <- Zle_Qle; lia).
  set (w := inject_Z (weight_of q)) in *.
  set (c := inject_Z (6 - a)) in *. set (c' := inject_Z (6 - a')) in *.
  assert (c / 5 == c * (1 # 5))%Q as -> by field.
  assert (c' / 5 == c' * (1 # 5))%Q as -> by field.
  nra.
Qed.

(** X4: Better answers never raise the vulnerability: when every answered
    question gets an answer at least as high (and the same questions stay
    unanswered), the result does not go up. *)
Theorem calc_vulnerability_antitone answers answers' questions osint_results :
  (forall q, q ∈ questions ->
     (exists a a', answers !! q_id q = Some (Some a)
                   /\ answers' !! q_id q = Some (Some a') /\ a <= a')
     \/ ((answers !! q_id q = None \/ answers !! q_id q = Some None)
         /\ (answers' !! q_id q = None \/ answers' !! q_id q = Some None))) ->
  calc_vulnerability answers' questions osint_results
  <= calc_vulnerability answers questions osint_results.
Proof.
  intros H. destruct (answered_improved answers answers' questions H) as (Hw & Hn & He).
  destruct (decide (answered answers questions = [])) as [E | E].
  { rewrite !calc_vulnerability_unmatched; [lia | done | by apply He]. }
  assert (answered answers' questions <> []) as E' by (by rewrite <- He).
  rewrite !calc_vulnerability_mean by eauto using answered_nonempty.
  apply osint_floor_int_mono, py_round_mono.
  unfold weighted_mean. rewrite Hw.
  pose proof (weight_sum_pos _ E) as Hpos.
  pose proof (Qdiv_le_mono _ _ _ Hpos Hn) as Hdiv.
  lra.
Qed.

Lemma calc_vulnerability_antitone_witness :
  calc_vulnerability (<[2 := Some 4]> some_answers) some_questions None
  <= calc_vulnerability some_answers some_questions None.
Proof.
  apply (calc_vulnerability_antitone some_answers (<[2 := Some 4]> some_answers)
           some_questions None).
  intros q Hq. unfold some_questions in Hq.
  repeat (apply elem_of_cons in Hq as [-> | Hq]).
  - left. exists 5, 5. repeat split. lia.
  - left. exists 1, 4. repeat split. lia.
  - right. split; right; reflexivity.
  - right. split; left; reflexivity.
  - by apply elem_of_nil in Hq.
Defined.

Lemma cloud_total_score_mono scores scores' criteria :
  Forall (fun c => 0 <= default 0 (c_points c))%Q criteria ->
  (forall c, c ∈ criteria ->
     default 0 (scores !! c_id c) <= default 0 (scores' !! c_id c)) ->
  (cloud_total_score scores criteria <= cloud_total_score scores' criteria)%Q.
Proof.
  intros Hp H. rewrite !cloud_total_score_sum.
  induction Hp as [| c criteria Hc _ IH]; simpl; [lra |].
  assert (inject_Z (default 0%Z (scores !! c_id c))
          <= inject_Z (default 0%Z (scores' !! c_id c)))%Q as Hm.
  { rewrite <- Zle_Qle. apply H, list_elem_of_here. }
  specialize (IH (fun c' Hc' => H c' (list_elem_of_further _ _ _ Hc'))).
  set (m := inject_Z (default 0 (scores !! c_id c))) in *.
  set (m' := inject_Z (default 0 (scores' !! c_id c))) in *.
  set (p := default 0%Q (c_points c)) in *.
  assert (m / 5 == m * (1 # 5))%Q as -> by field.
  assert (m' / 5 == m' * (1 # 5))%Q as -> by field.
  nra.
Qed.

(** X5: Higher maturity scores never lower the cloud score and never raise the
    cloud vulnerability, as long as no criterion has negative points. *)
Theorem cloud_scores_monotone scores scores' criteria osint_results :
  Forall (fun c => 0 <= default 0 (c_points c))%Q criteria ->
  (forall c, c ∈ criteria ->
     default 0 (scores !! c_id c) <= default 0 (scores' !! c_id c)) ->
  score (calc_cloud_vulnerability scores criteria osint_results)
    <= score (calc_cloud_vulnerability scores' criteria osint_results)
  /\ vulnerability (calc_cloud_vulnerability scores' criteria osint_results)
     <= vulnerability (calc_cloud_vulnerability scores criteria osint_results).
Proof.
  intros Hp H. pose proof (cloud_total_score_mono _ _ _ Hp H) as Ht.
  destruct (cloud_fields scores criteria osint_results) as (-> & _ & _ & Hv).
  destruct (cloud_fields scores' criteria osint_results) as (-> & _ & _ & Hv').
  rewrite (cloud_vulnerability_floor scores), (cloud_vulnerability_floor scores'), Hv, Hv'.
  split; [by apply py_round_mono |].
  apply osint_floor_int_mono, py_round_mono.
  set (t := cloud_total_score scores criteria) in *.
  set (t' := cloud_total_score scores' criteria) in *.
  assert (t / 55 == t * (1 # 55))%Q as -> by field.
  assert (t' / 55 == t' * (1 # 55))%Q as -> by field.
  lra.
Qed.

Lemma cloud_scores_monotone_witness :
  score (calc_cloud_vulnerability gated_scores gated_criteria None)
    <= score (calc_cloud_vulnerability (<[2 := 3]> gated_scores) gated_criteria None)
  /\ vulnerability (calc_cloud_vulnerability (<[2 := 3]> gated_scores) gated_criteria None)
     <= vulnerability (calc_cloud_vulnerability gated_scores gated_criteria None).
Proof.
  apply (cloud_scores_monotone gated_scores (<[2 := 3]> gated_scores) gated_criteria None).
  - repeat constructor; simpl; lra.
  - intros c Hc. unfold gated_criteria in Hc.
    repeat (apply elem_of_cons in Hc as [-> | Hc]); [vm_compute; discriminate .. |].
    by apply elem_of_nil in Hc.
Defined.

(** * Further properties of the OSINT service *)

(** ** The cache *)

Lemma get_cache_frame key key' ttl now (cache : Cache) :
  key' <> key -> snd (_get_cache key ttl now cache) !! key' = cache !! key'.
Proof.
  intros Hne. unfold _get_cache.
  destruct (cache !! key) as [[r t] |]; [| done].
  destruct (Qlt_bool (now - t) ttl); [done |]. simpl.
  by rewrite lookup_delete_ne.
Qed.

(** X8: A value put in the cache at time [t] is handed back, and the cache left
    alone, as long as less than [ttl] has passed; from then on the entry is
    dropped and nothing is returned.  Other keys are never touched. *)
Theorem cache_round_trip key value t now ttl (cache : Cache) :
  ((now - t < ttl)%Q ->
   _get_cache key ttl now (_set_cache key value t cache)
   = (Some value, _set_cache key value t cache))
  /\ ((ttl <= now - t)%Q ->
      _get_cache key ttl now (_set_cache key value t cache) = (None, delete key cache))
  /\ (forall key', key' <> key ->
        snd (_get_cache key ttl now (_set_cache key value t cache)) !! key'
        = cache !! key').
Proof.
  unfold _get_cache at 1 2, _set_cache. rewrite lookup_insert_eq.
  split; [| split].
  - intros H%Qlt_bool_true. by rewrite H.
  - intros H%Qlt_bool_false. rewrite H. by rewrite delete_insert_eq.
  - intros key' Hne. rewrite get_cache_frame by done. by rewrite lookup_insert_ne.
Qed.

Lemma cache_round_trip_witness :
  _get_cache "ssl_example.com" 300 1200 (_set_cache "ssl_example.com" (SslStats true 90 "A") 1000 ∅)
  = (Some (SslStats true 90 "A"), _set_cache "ssl_example.com" (SslStats true 90 "A") 1000 ∅).
Proof.
  apply (cache_round_trip "ssl_example.com" (SslStats true 90 "A") 1000 1200 300 ∅).
  reflexivity.
Defined.

(** Each check changes at most its own entry of the cache. *)
Lemma get_certificate_stats_frame env domain (cache : Cache) key :
  key <> ("ssl_" +:+ domain)%string ->
  snd (get_certificate_stats env domain cache) !! key = cache !! key.
Proof.
  intros Hne. unfold get_certificate_stats.
  destruct (blank domain); [done |].
  pose proof (get_cache_frame ("ssl_" +:+ domain) key 300 (clock_get env) cache Hne) as Hf.
  destruct (_get_cache ("ssl_" +:+ domain) 300 (clock_get env) cache) as [[r |] cache'];
    simpl in *; [done |].
  unfold _set_cache. by rewrite lookup_insert_ne.
Qed.

Lemma check_dmarc_frame env domain (cache : Cache) key :
  key <> ("dmarc_" +:+ domain)%string ->
  snd (check_dmarc env domain cache) !! key = cache !! key.
Proof.
  intros Hne. unfold check_dmarc.
  destruct (blank domain); [done |].
  pose proof (get_cache_frame ("dmarc_" +:+ domain) key 300 (clock_get env) cache Hne) as Hf.
  destruct (_get_cache ("dmarc_" +:+ domain) 300 (clock_get env) cache) as [[r |] cache'];
    simpl in *; [done |].
  unfold _set_cache. by rewrite lookup_insert_ne.
Qed.

(** The answer of a check depends on the cache only through its own entry. *)
Lemma get_certificate_stats_reads env domain (cache cache' : Cache) :
  cache !! ("ssl_" +:+ domain)%string = cache' !! ("ssl_" +:+ domain)%string ->
  fst (get_certificate_stats env domain cache)
  = fst (get_certificate_stats env domain cache').
Proof.
  intros H. unfold get_certificate_stats, _get_cache. rewrite H.
  destruct (blank domain); [done |].
  destruct (cache' !! ("ssl_" +:+ domain)%string) as [[r t] |]; [| done].
  by destruct (Qlt_bool (clock_get env - t) 300).
Qed.

Lemma check_dmarc_reads env domain (cache cache' : Cache) :
  cache !! ("dmarc_" +:+ domain)%string = cache' !! ("dmarc_" +:+ domain)%string ->
  fst (check_dmarc env domain cache) = fst (check_dmarc env domain cache').
Proof.
  intros H. unfold check_dmarc, _get_cache. rewrite H.
  destruct (blank domain); [done |].
  destruct (cache' !! ("dmarc_" +:+ domain)%string) as [[r t] |]; [| done].
  by destruct (Qlt_bool (clock_get env - t) 300).
Qed.

(** X11: The two checks share the cache without disturbing each other: a DMARC
    check, on any domain, leaves every later certificate answer as it would
    have been, and the other way round. *)
Theorem checks_do_not_interfere env env' domain domain' (cache : Cache) :
  fst (get_certificate_stats env domain (snd (check_dmarc env' domain' cache)))
  = fst (get_certificate_stats env domain cache)
  /\ fst (check_dmarc env domain (snd (get_certificate_stats env' domain' cache)))
     = fst (check_dmarc env domain cache).
Proof.
  split.
  - apply get_certificate_stats_reads, check_dmarc_frame, key_prefixes_differ.
  - apply check_dmarc_reads, get_certificate_stats_frame.
    intros E. symmetry in E. by apply key_prefixes_differ in E.
Qed.

(** X9: Once a certificate has been fetched for a domain, asking again before
    300 seconds have passed gives the same answer, failures included,
    whatever the certificate has become, and leaves the cache as it is. *)
Theorem certificate_answer_is_kept env env' domain (cache : Cache) :
  blank domain = false ->
  no_fresh_entry env ("ssl_" +:+ domain) cache ->
  (clock_get env' - clock_set env < 300)%Q ->
  get_certificate_stats env' domain (snd (get_certificate_stats env domain cache))
  = get_certificate_stats env domain cache.
Proof.
  intros Hb Hmiss%get_cache_miss Hfresh%Qlt_bool_true.
  unfold get_certificate_stats at 2 3. rewrite Hb.
  destruct (_get_cache ("ssl_" +:+ domain) 300 (clock_get env) cache) as [cached cache1].
  simpl in Hmiss. subst cached. simpl.
  unfold get_certificate_stats. rewrite Hb.
  unfold _get_cache, _set_cache. rewrite lookup_insert_eq, Hfresh. done.
Qed.

(** X10: Likewise for DMARC: once a domain has been looked up, asking again
    before 300 seconds have passed gives the same answer, a failed lookup
    included, whatever DNS says by then, and leaves the cache as it is. *)
Theorem dmarc_answer_is_kept env env' domain (cache : Cache) :
  blank domain = false ->
  no_fresh_entry env ("dmarc_" +:+ domain) cache ->
  (clock_get env' - clock_set env < 300)%Q ->
  check_dmarc env' domain (snd (check_dmarc env domain cache))
  = check_dmarc env domain cache.
Proof.
  intros Hb Hmiss%get_cache_miss Hfresh%Qlt_bool_true.
  unfold check_dmarc at 2 3. rewrite Hb.
  destruct (_get_cache ("dmarc_" +:+ domain) 300 (clock_get env) cache) as [cached cache1].
  simpl in Hmiss. subst cached. simpl.
  unfold check_dmarc. rewrite Hb.
  unfold _get_cache, _set_cache. rewrite lookup_insert_eq, Hfresh. done.
Qed.

Lemma certificate_answer_is_kept_witness :
  get_certificate_stats later_env "example.com"
    (snd (get_certificate_stats lowercase_env "example.com" ∅))
  = get_certificate_stats lowercase_env "example.com" ∅.
Proof.
  apply (certificate_answer_is_kept lowercase_env later_env "example.com" ∅).
  - reflexivity.
  - intros r t Hk. rewrite lookup_empty in Hk. discriminate Hk.
  - reflexivity.
Defined.

Lemma dmarc_answer_is_kept_witness :
  check_dmarc later_env "example.com" (snd (check_dmarc lowercase_env "example.com" ∅))
  = check_dmarc lowercase_env "example.com" ∅.
Proof.
  apply (dmarc_answer_is_kept lowercase_env later_env "example.com" ∅).
  - reflexivity.
  - intros r t Hk. rewrite lookup_empty in Hk. discriminate Hk.
  - reflexivity.
Defined.

(** ** The ransomware check *)

Lemma truthy_true s : truthy s = true <-> s <> ""%string.
Proof. by destruct s. Qed.

Lemma post_match_spec name domain post_title :
  (truthy name && contains name (lower (default ""%string post_title))
   || truthy domain && contains domain (lower (default ""%string post_title))
   || existsb (fun word => contains word (lower (default ""%string post_title)))
        (filter (fun w => (3 <? String.length w)%nat) (split_words name))) = true
  <-> mentions name domain post_title.
Proof.
  unfold mentions.
  rewrite !orb_true_iff, !andb_true_iff, !truthy_true, !contains_occurs_in, existsb_exists.
  split.
  - intros [[H | H] | (word & Hin & H)]; [by left | by right; left |].
    right; right. exists word.
    apply list_elem_of_In, list_elem_of_filter in Hin as [Hlen Hin].
    apply Is_true_true, Nat.ltb_lt in Hlen. by rewrite <- contains_occurs_in.
  - intros [H | [H | (word & Hin & Hlen & H)]]; [by left; left | by left; right |].
    right. exists word. split; [| by apply contains_occurs_in].
    apply list_elem_of_In, list_elem_of_filter. split; [| done].
    by apply Is_true_true, Nat.ltb_lt.
Qed.

Lemma search_posts_step name domain post_title rest :
  search_posts name domain (PostTitle post_title :: rest)
  = (truthy name && contains name (lower (default ""%string post_title))
     || truthy domain && contains domain (lower (default ""%string post_title))
     || existsb (fun word => contains word (lower (default ""%string post_title)))
          (filter (fun w => (3 <? String.length w)%nat) (split_words name)))
    || search_posts name domain rest.
Proof.
  simpl.
  destruct (truthy name && contains name _); [done |].
  destruct (truthy domain && contains domain _); [done |].
  by destruct (existsb _ _).
Qed.

Lemma search_posts_spec name domain posts :
  search_posts name domain posts = true <->
  exists before post_title after,
    posts = before ++ PostTitle post_title :: after
    /\ Forall (fun p => p <> PostMalformed) before
    /\ mentions name domain post_title.
Proof.
  induction posts as [| [t |] posts IH].
  - split; [done |]. intros (before & t & after & E & _). by destruct before.
  - rewrite search_posts_step, orb_true_iff, post_match_spec, IH. split.
    + intros [H | (before & t' & after & -> & Hb & H)].
      * by exists [], t, posts.
      * exists (PostTitle t :: before), t', after. repeat split; try done.
        by constructor.
    + intros (before & t' & after & E & Hb & H).
      destruct before as [| p before]; simplify_eq/=; [by left |].
      right. exists before, t', after. repeat split; try done.
      by inversion Hb.
  - split; [done |]. intros (before & t & after & E & Hb & _).
    destruct before as [| p before]; simplify_eq/=.
    inversion Hb; simplify_eq.
Qed.

Lemma search_posts_nothing posts : search_posts "" "" posts = false.
Proof. induction posts as [| [t |] posts IH]; simpl; done. Qed.

(** X12: The vendor is reported exactly when some post of the list, with no
    malformed element before it, mentions the stripped, lower-cased name,
    the domain treated alike, or a word of that name longer than three
    characters.  A single shared word is enough. *)
Theorem check_vendor_ransomware_spec posts vendor_name vendor_domain :
  check_vendor_ransomware posts vendor_name vendor_domain = true <->
  exists before post_title after,
    posts = before ++ PostTitle post_title :: after
    /\ Forall (fun p => p <> PostMalformed) before
    /\ mentions (strip (lower vendor_name)) (strip (lower vendor_domain)) post_title.
Proof.
  rewrite <- search_posts_spec. unfold check_vendor_ransomware.
  destruct (negb (truthy vendor_name) && negb (truthy vendor_domain)) eqn:E0.
  { apply andb_true_iff in E0 as [H1 H2].
    destruct vendor_name, vendor_domain; try done.
    change (strip (lower "")) with ""%string. by rewrite search_posts_nothing. }
  destruct posts as [| p posts]; [done |].
  destruct (negb (truthy (strip (lower vendor_name)))
            && negb (truthy (strip (lower vendor_domain)))) eqn:E1; [| done].
  apply andb_true_iff in E1 as [H1 H2].
  destruct (strip (lower vendor_name)), (strip (lower vendor_domain)); try done.
  split; [done |]. intros H%search_posts_spec.
  destruct H as (before & t & after & _ & _ & [[H _] | [[H _] | (w & H & _)]]); try done.
  by apply elem_of_nil in H.
Qed.

Lemma check_vendor_ransomware_spec_witness :
  check_vendor_ransomware bank_posts "Bank of America" "boa.com" = true.
Proof.
  apply (check_vendor_ransomware_spec bank_posts "Bank of America" "boa.com").
  exists [], (Some "Bank of Ireland customer data"%string), []. repeat split; [done |].
  right; right. exists "bank"%string.
  assert (split_words (strip (lower "Bank of America")) = ["bank"; "of"; "america"]%string)
    as -> by (vm_compute; reflexivity).
  split; [apply list_elem_of_here |].
  split; [simpl; lia |]. by exists ""%string, " of ireland customer data"%string.
Defined.

Lemma truthy_lower s : truthy (lower s) = truthy s.
Proof. by destruct s. Qed.

(** X13: Letter case never matters to the ransomware check: names and domains
    that agree once lower-cased give the same verdict. *)
Theorem check_vendor_ransomware_ignores_case posts name name' domain domain' :
  lower name = lower name' ->
  lower domain = lower domain' ->
  check_vendor_ransomware posts name domain = check_vendor_ransomware posts name' domain'.
Proof.
  intros Hn Hd. unfold check_vendor_ransomware.
  rewrite <- (truthy_lower name), <- (truthy_lower domain), Hn, Hd, !truthy_lower.
  done.
Qed.

Lemma check_vendor_ransomware_ignores_case_witness :
  check_vendor_ransomware bank_posts "BANK OF AMERICA" "BoA.com"
  = check_vendor_ransomware bank_posts "bank of america" "boa.com".
Proof.
  apply (check_vendor_ransomware_ignores_case bank_posts); reflexivity.
Defined.

(** ** The scan *)

Lemma has_dmarc_of_result r : dmarc_result r -> is_Some (has_dmarc_of r) /\ is_Some (domain_of r).
Proof. intros (h & p & d & -> & _). split; eauto. Qed.

Lemma dmarc_lists_defined results :
  Forall dmarc_result results ->
  is_Some (any_has_dmarc results) /\ is_Some (all_have_dmarc results)
  /\ is_Some (domains_of results) /\ is_Some (missing_domains results).
Proof.
  induction 1 as [| r results (h & p & d & -> & _) _ (IH1 & IH2 & [ds IH3] & [ms IH4])];
    simpl; [by eauto |].
  rewrite IH3, IH4. destruct h; simpl; eauto.
Qed.

Lemma check_subdomains_ok world i subdomains cache :
  cache_ok cache ->
  Forall dmarc_result (fst (check_subdomains world i subdomains cache))
  /\ cache_ok (snd (check_subdomains world i subdomains cache)).
Proof.
  revert i cache. induction subdomains as [| s subdomains IH]; intros i cache Hok; simpl.
  { by split. }
  destruct (check_dmarc_ok (dmarc_env world i) s cache Hok) as [Hr Hok'].
  destruct (check_dmarc (dmarc_env world i) s cache) as [r cache1]. simpl in *.
  destruct (IH (S i) cache1 Hok') as [Hrs Hok''].
  destruct (check_subdomains world (S i) subdomains cache1) as [rs cache2]. simpl in *.
  split; [by constructor | done].
Qed.

Lemma check_subdomains_reachable world i subdomains cache :
  reachable cache -> reachable (snd (check_subdomains world i subdomains cache)).
Proof.
  revert i cache. induction subdomains as [| s subdomains IH]; intros i cache Hr; simpl.
  { done. }
  pose proof (reach_dmarc (dmarc_env world i) s cache Hr) as Hr'.
  destruct (check_dmarc (dmarc_env world i) s cache) as [r cache1]. simpl in *.
  specialize (IH (S i) cache1 Hr').
  by destruct (check_subdomains world (S i) subdomains cache1) as [rs cache2].
Qed.

Lemma scan_ssl_defined world primary_domain cache :
  reachable cache ->
  exists warnings grade cache',
    scan_ssl world primary_domain cache = Some (warnings, grade, cache')
    /\ reachable cache'.
Proof.
  intros Hr. unfold scan_ssl. destruct (truthy primary_domain); [| by eauto].
  pose proof (reach_ssl (ssl_env world) primary_domain cache Hr) as Hr'.
  destruct (get_certificate_stats_ok (ssl_env world) primary_domain cache
              (reachable_cache_ok _ Hr)) as [(v & d & g & E & _) _].
  destruct (get_certificate_stats (ssl_env world) primary_domain cache) as [r cache'].
  simpl in *. subst r. eauto.
Qed.

Lemma scan_dmarc_defined world primary_domain osint_urls cache :
  reachable cache ->
  exists warnings has_dmarc cache',
    scan_dmarc world primary_domain osint_urls cache = Some (warnings, has_dmarc, cache')
    /\ reachable cache'.
Proof.
  intros Hr. unfold scan_dmarc.
  destruct (truthy (default ""%string (osint_urls !! "dmarc_subdomains"%string))).
  - set (subdomains := filter _ _).
    pose proof (check_subdomains_reachable world 0 subdomains cache Hr) as Hr'.
    destruct (check_subdomains_ok world 0 subdomains cache (reachable_cache_ok _ Hr))
      as [Hrs _].
    destruct (check_subdomains world 0 subdomains cache) as [results cache'].
    simpl in *.
    destruct (dmarc_lists_defined results Hrs) as ([a ->] & [b ->] & [ds ->] & [ms ->]).
    simpl. destruct a, b; simpl; eauto.
  - destruct (truthy primary_domain); [| by eauto].
    pose proof (reach_dmarc (dmarc_env world 0) primary_domain cache Hr) as Hr'.
    destruct (check_dmarc_ok (dmarc_env world 0) primary_domain cache
                (reachable_cache_ok _ Hr)) as [(h & p & d & E & _) _].
    destruct (check_dmarc (dmarc_env world 0) primary_domain cache) as [r cache'].
    simpl in *. subst r. simpl. eauto.
Qed.

Lemma scan_vendor_defined world primary_domain osint_urls cache :
  reachable cache ->
  exists warnings osintResults cache',
    scan_vendor world primary_domain osint_urls cache
    = Some (warnings, osintResults, cache')
    /\ reachable cache'.
Proof.
  intros Hr. unfold scan_vendor.
  destruct (scan_ransomware world _ primary_domain) as [wr found].
  destruct (scan_ssl_defined world primary_domain cache Hr)
    as (ws & grade & cache1 & -> & Hr1). simpl.
  destruct (scan_dmarc_defined world primary_domain osint_urls cache1 Hr1)
    as (wd & has & cache2 & -> & Hr2). simpl.
  eauto.
Qed.

(** X14: From any cache the service can have built, a scan completes: no
    [KeyError] escapes, whatever the network answers, and the cache it
    leaves is again one the service can have built. *)
Theorem scan_vendor_completes world primary_domain osint_urls cache :
  reachable cache ->
  exists warnings osintResults cache',
    scan_vendor world primary_domain osint_urls cache
    = Some (warnings, osintResults, cache')
    /\ reachable cache'.
Proof.
  intros Hr.
  destruct (scan_vendor_defined world primary_domain osint_urls cache Hr)
    as (warnings & osintResults & cache' & E & Hr').
  by exists warnings, osintResults, cache'.
Qed.

Lemma scan_vendor_completes_witness :
  exists warnings osintResults cache',
    scan_vendor sample_world "example.com" ∅ ∅
    = Some (warnings, osintResults, cache')
    /\ reachable cache'.
Proof.
  apply (scan_vendor_completes sample_world "example.com" ∅ ∅).
  apply reach_init.
Defined.

(** ** Warnings written by a scan and read back *)

Lemma lower_app a b : lower (a +:+ b) = (lower a +:+ lower b)%string.
Proof.
  induction a as [| c a IH]; [done |].
  change (String (lower_char c) (lower (a +:+ b))
          = String (lower_char c) (lower a +:+ lower b))%string.
  by rewrite IH.
Qed.

Lemma digits_hold_no_e u tail :
  contains "e" (lower (NilEmpty.string_of_uint u +:+ tail)) = contains "e" (lower tail).
Proof. induction u; solve [reflexivity | exact IHu]. Qed.

Lemma str_int_holds_no_e n tail :
  contains "e" (lower (str_int n +:+ tail)) = contains "e" (lower tail).
Proof.
  unfold str_int.
  destruct (Z.to_int n) as [u | u]; destruct u;
    solve [reflexivity | apply (digits_hold_no_e (Decimal.D0 u))
           | apply (digits_hold_no_e (Decimal.D1 u)) | apply (digits_hold_no_e (Decimal.D2 u))
           | apply (digits_hold_no_e (Decimal.D3 u)) | apply (digits_hold_no_e (Decimal.D4 u))
           | apply (digits_hold_no_e (Decimal.D5 u)) | apply (digits_hold_no_e (Decimal.D6 u))
           | apply (digits_hold_no_e (Decimal.D7 u)) | apply (digits_hold_no_e (Decimal.D8 u))
           | apply (digits_hold_no_e (Decimal.D9 u))].
Qed.

(** The message of a grade F warning says "expired"; that of a grade C
    warning never does, whatever the number of days. *)
Lemma failing_message_says_expired days :
  contains "expired"
    (lower ("SSL certificate expired or expiring soon (" +:+ str_int days +:+ " days)"))
  = true.
Proof.
  apply contains_occurs_in.
  exists "ssl certificate "%string,
         (" or expiring soon (" +:+ lower (str_int days +:+ " days)"))%string.
  by rewrite lower_app.
Qed.

Lemma expiring_message_not_expired days :
  contains "expired" (lower ("SSL certificate expiring in " +:+ str_int days +:+ " days"))
  = false.
Proof.
  rewrite lower_app.
  change (contains "expired" (lower (str_int days +:+ " days")) = false).
  apply not_true_iff_false. intros H%contains_occurs_in.
  apply (occurs_in_longer "e" "xpired"), contains_occurs_in in H.
  rewrite str_int_holds_no_e in H. discriminate H.
Qed.

Lemma graded_grades days grade :
  graded days grade ->
  grade = "F"%string \/ grade = "C"%string \/ grade = "B"%string \/ grade = "A"%string.
Proof.
  intros (HF & HC & HB & HA).
  destruct (Z.lt_ge_cases days 7); [auto |].
  destruct (Z.lt_ge_cases days 30); [auto |].
  destruct (Z.lt_ge_cases days 60); auto 6.
Qed.

Lemma scan_ransomware_part world vendor_name primary_domain :
  ransomware_part (snd (scan_ransomware world vendor_name primary_domain))
                  (fst (scan_ransomware world vendor_name primary_domain)).
Proof.
  unfold scan_ransomware, ransomware_part.
  destruct (truthy vendor_name || truthy primary_domain); simpl; [| by auto].
  destruct (check_vendor_ransomware _ _ _); simpl; eauto.
Qed.

Lemma scan_ssl_part world primary_domain cache warnings grade cache' :
  cache_ok cache ->
  scan_ssl world primary_domain cache = Some (warnings, grade, cache') ->
  ssl_part grade warnings.
Proof.
  intros Hok. unfold scan_ssl, ssl_part.
  destruct (truthy primary_domain); [| intros [= <- <- <-]; by auto 6].
  destruct (get_certificate_stats_ok (ssl_env world) primary_domain cache Hok)
    as [(v & d & g & E & Hg) _].
  destruct (get_certificate_stats (ssl_env world) primary_domain cache) as [r cache1].
  simpl in E. subst r. intros [= <- <- <-].
  destruct (graded_grades d g Hg) as [-> | [-> | [-> | ->]]]; simpl; eauto 8.
Qed.

Lemma scan_dmarc_part world primary_domain osint_urls cache warnings has_dmarc cache' :
  scan_dmarc world primary_domain osint_urls cache = Some (warnings, has_dmarc, cache') ->
  dmarc_part has_dmarc warnings.
Proof.
  unfold scan_dmarc, dmarc_part.
  destruct (truthy (default ""%string (osint_urls !! "dmarc_subdomains"%string))).
  - destruct (check_subdomains world 0 _ cache) as [results cache1].
    destruct (any_has_dmarc results) as [[|] |]; simpl; [| | done].
    + destruct (all_have_dmarc results) as [[|] |]; simpl; [| | done].
      * intros [= <- <- <-]. auto 6.
      * destruct (missing_domains results); simpl; [| done].
        destruct (domains_of results); simpl; [| done].
        intros [= <- <- <-]. right; left. eauto.
    + destruct (all_have_dmarc results); simpl; [| done].
      destruct (domains_of results); simpl; [| done].
      intros [= <- <- <-]. left. eauto.
  - destruct (truthy primary_domain); [| intros [= <- <- <-]; by auto 6].
    destruct (check_dmarc (dmarc_env world 0) primary_domain cache) as [r cache1].
    destruct (has_dmarc_of r) as [[|] |]; simpl; [| | done]; intros [= <- <- <-].
    + auto 6.
    + left. eauto.
Qed.

Lemma scan_vendor_warnings_parts world primary_domain osint_urls cache
    warnings osintResults cache' :
  reachable cache ->
  scan_vendor world primary_domain osint_urls cache
  = Some (warnings, osintResults, cache') ->
  exists w_ransomware w_ssl w_dmarc,
    warnings = w_ransomware ++ w_ssl ++ w_dmarc
    /\ ransomware_part (ransomware osintResults) w_ransomware
    /\ ssl_part (ssl osintResults) w_ssl
    /\ dmarc_part (dmarc osintResults) w_dmarc.
Proof.
  intros Hok%reachable_cache_ok. unfold scan_vendor.
  pose proof (scan_ransomware_part world
                (default ""%string (osint_urls !! "vendor_name"%string)) primary_domain) as Hr.
  destruct (scan_ransomware world _ primary_domain) as [wr found].
  destruct (scan_ssl world primary_domain cache) as [[[ws grade] cache1] |] eqn:Essl;
    simpl; [| done].
  destruct (scan_dmarc world primary_domain osint_urls cache1)
    as [[[wd has] cache2] |] eqn:Edmarc; simpl; [| done].
  intros [= <- <- <-]. exists wr, ws, wd. simpl.
  split; [done |]. split; [done |]. split.
  - by eapply scan_ssl_part.
  - by eapply scan_dmarc_part.
Qed.

(** X15: A completed scan lists its warnings in the order ransomware,
    certificate, DMARC, at most one of each: a ransomware warning exactly
    when the vendor was found; a High certificate warning exactly for grade
    F and a Medium one exactly for grade C; a Medium DMARC warning exactly
    when no DMARC record was found, and a Low one only when one was. *)
Theorem scan_vendor_warnings world primary_domain osint_urls cache
    warnings osintResults cache' :
  reachable cache ->
  scan_vendor world primary_domain osint_urls cache
  = Some (warnings, osintResults, cache') ->
  exists w_ransomware w_ssl w_dmarc,
    warnings = w_ransomware ++ w_ssl ++ w_dmarc
    /\ ransomware_part (ransomware osintResults) w_ransomware
    /\ ssl_part (ssl osintResults) w_ssl
    /\ dmarc_part (dmarc osintResults) w_dmarc.
Proof.
  intros Hr E.
  destruct (scan_vendor_warnings_parts _ _ _ _ _ _ _ Hr E)
    as (w_ransomware & w_ssl & w_dmarc & Happ & Hparts).
  exists w_ransomware, w_ssl, w_dmarc. by split.
Qed.

Lemma sample_scan : is_Some (scan_vendor sample_world "example.com" ∅ ∅).
Proof. vm_compute. eexists. reflexivity. Qed.

Lemma scan_vendor_warnings_witness :
  match scan_vendor sample_world "example.com" ∅ ∅ with
  | Some (warnings, osintResults, _) =>
      exists w_ransomware w_ssl w_dmarc,
        warnings = w_ransomware ++ w_ssl ++ w_dmarc
        /\ ransomware_part (ransomware osintResults) w_ransomware
        /\ ssl_part (ssl osintResults) w_ssl
        /\ dmarc_part (dmarc osintResults) w_dmarc
  | None => False
  end.
Proof.
  destruct sample_scan as [[[warnings o] cache'] E].
  rewrite E.
  exact (scan_vendor_warnings sample_world "example.com" ∅ ∅ warnings o cache'
           reach_init E).
Defined.

Lemma calc_impact_likelihood_hit answers questions o1 o2 :
  ransomware_hit o1 = ransomware_hit o2 ->
  calc_impact_likelihood answers questions o1 = calc_impact_likelihood answers questions o2.
Proof. intros H. unfold calc_impact_likelihood. by rewrite H. Qed.

Lemma osint_floor_int_signals osint_results v :
  osint_floor_int osint_results v
  = (let v := if ssl_floor_applies osint_results then Z.max v 80 else v in
     if dmarc_floor_applies osint_results then Z.max v 60 else v).
Proof. by destruct osint_results. Qed.

Lemma osint_floor_int_more o1 o2 v :
  ssl_floor_applies o1 = ssl_floor_applies o2 ->
  (dmarc_floor_applies o1 = true -> dmarc_floor_applies o2 = true) ->
  osint_floor_int o1 v <= osint_floor_int o2 v.
Proof.
  intros Hs Hd. rewrite !osint_floor_int_signals, Hs. simpl.
  destruct (ssl_floor_applies o2), (dmarc_floor_applies o1) eqn:E1,
    (dmarc_floor_applies o2) eqn:E2; try lia; by specialize (Hd eq_refl).
Qed.

Lemma osint_floor_int_same o1 o2 v :
  ssl_floor_applies o1 = ssl_floor_applies o2 ->
  dmarc_floor_applies o1 = dmarc_floor_applies o2 ->
  osint_floor_int o1 v = osint_floor_int o2 v.
Proof. intros Hs Hd. by rewrite !osint_floor_int_signals, Hs, Hd. Qed.

(** Reading the three kinds of warning back, with the messages kept
    abstract. *)
Ltac hide_messages :=
  unfold ransomware_warning, ssl_warning, dmarc_warning;
  repeat match goal with
         | |- context [Some (String.append ?a ?b)] =>
             let m := fresh "m" in
             set (m := String.append a b) in *; clearbody m
         end.

Ltac read_back :=
  unfold osint_from_warnings;
  repeat match goal with
         | |- context [first_warning ?t ?l] =>
             let r := eval vm_compute in (first_warning t l) in
             change (first_warning t l) with r
         end;
  cbn.

Lemma read_back_signals w_ransomware w_ssl w_dmarc found grade has_dmarc :
  ransomware_part found w_ransomware ->
  ssl_part grade w_ssl ->
  dmarc_part has_dmarc w_dmarc ->
  ransomware_hit (osint_from_warnings (w_ransomware ++ w_ssl ++ w_dmarc))
  = ransomware_hit (Some (mkOsint found grade has_dmarc))
  /\ ssl_floor_applies (osint_from_warnings (w_ransomware ++ w_ssl ++ w_dmarc))
     = ssl_floor_applies (Some (mkOsint found grade has_dmarc))
  /\ (dmarc_floor_applies (Some (mkOsint found grade has_dmarc)) = true ->
      dmarc_floor_applies (osint_from_warnings (w_ransomware ++ w_ssl ++ w_dmarc)) = true)
  /\ ((forall w, w ∈ w_dmarc -> w_severity w <> Some "Low"%string) ->
      dmarc_floor_applies (osint_from_warnings (w_ransomware ++ w_ssl ++ w_dmarc))
      = dmarc_floor_applies (Some (mkOsint found grade has_dmarc)))
  /\ (osint_from_warnings (w_ransomware ++ w_ssl ++ w_dmarc)) ≫= ssl
     = (if bool_decide (grade = Some "F"%string) then Some "F"%string
        else if bool_decide (grade = Some "C"%string) then Some "B"%string
        else None).
Proof.
  intros [[-> [name ->]] | [[-> | ->] ->]]
         [[-> [days ->]] | [[-> [days ->]] | [[-> | [-> | ->]] ->]]]
         [[-> (msg & cd & ->)] | [[-> (msg & cd & ->)] | [[-> | ->] ->]]];
    try (pose proof (failing_message_says_expired days) as Hf);
    try (pose proof (expiring_message_not_expired days) as Hc);
    hide_messages; read_back; rewrite ?Hf, ?Hc;
    repeat split; try done;
    (intros Hlow; exfalso; eapply Hlow; [apply list_elem_of_here | done]).
Qed.

Lemma scan_read_back world primary_domain osint_urls cache warnings osintResults cache' :
  reachable cache ->
  scan_vendor world primary_domain osint_urls cache
  = Some (warnings, osintResults, cache') ->
  ransomware_hit (osint_from_warnings warnings) = ransomware_hit (Some osintResults)
  /\ ssl_floor_applies (osint_from_warnings warnings)
     = ssl_floor_applies (Some osintResults)
  /\ (dmarc_floor_applies (Some osintResults) = true ->
      dmarc_floor_applies (osint_from_warnings warnings) = true)
  /\ ((forall w, w ∈ warnings -> w_severity w <> Some "Low"%string) ->
      dmarc_floor_applies (osint_from_warnings warnings)
      = dmarc_floor_applies (Some osintResults))
  /\ (osint_from_warnings warnings) ≫= ssl
     = (if bool_decide (ssl osintResults = Some "F"%string) then Some "F"%string
        else if bool_decide (ssl osintResults = Some "C"%string) then Some "B"%string
        else None).
Proof.
  intros Hr E.
  destruct (scan_vendor_warnings_parts world primary_domain osint_urls cache
              warnings osintResults cache' Hr E) as (wr & ws & wd & -> & H1 & H2 & H3).
  destruct osintResults as [found grade has]. simpl in *.
  destruct (read_back_signals wr ws wd found grade has H1 H2 H3)
    as (Ha & Hb & Hc & Hd & He).
  repeat split; try done.
  intros Hlow. apply Hd. intros w Hw. apply Hlow.
  rewrite !elem_of_app. auto.
Qed.

(** X17: What [get_vendors] reads back from the warnings a scan stored scores
    like the scan's own results, or more severely: impact and likelihood
    are the same, the vulnerability of either track is never lower, and it
    is the same unless the scan left a Low warning (DMARC on some
    subdomains only), which is read back as a missing DMARC record. *)
Theorem stored_warnings_score_alike world primary_domain osint_urls cache
    warnings osintResults cache' :
  reachable cache ->
  scan_vendor world primary_domain osint_urls cache
  = Some (warnings, osintResults, cache') ->
  (forall answers questions,
     calc_impact_likelihood answers questions (osint_from_warnings warnings)
     = calc_impact_likelihood answers questions (Some osintResults))
  /\ (forall answers questions,
        calc_vulnerability answers questions (Some osintResults)
        <= calc_vulnerability answers questions (osint_from_warnings warnings))
  /\ (forall scores criteria,
        vulnerability (calc_cloud_vulnerability scores criteria (Some osintResults))
        <= vulnerability
             (calc_cloud_vulnerability scores criteria (osint_from_warnings warnings)))
  /\ ((forall w, w ∈ warnings -> w_severity w <> Some "Low"%string) ->
      (forall answers questions,
         calc_vulnerability answers questions (osint_from_warnings warnings)
         = calc_vulnerability answers questions (Some osintResults))
      /\ (forall scores criteria,
            vulnerability
              (calc_cloud_vulnerability scores criteria (osint_from_warnings warnings))
            = vulnerability
                (calc_cloud_vulnerability scores criteria (Some osintResults)))).
Proof.
  intros Hr E.
  destruct (scan_read_back _ _ _ _ _ _ _ Hr E) as (Hhit & Hssl & Hdmarc & Hlow & _).
  split; [| split; [| split]].
  - intros answers questions. by apply calc_impact_likelihood_hit.
  - intros answers questions.
    rewrite (calc_vulnerability_floor _ _ (Some osintResults)),
      (calc_vulnerability_floor _ _ (osint_from_warnings warnings)).
    by apply osint_floor_int_more.
  - intros scores criteria.
    rewrite (cloud_vulnerability_floor _ _ (Some osintResults)),
      (cloud_vulnerability_floor _ _ (osint_from_warnings warnings)).
    by apply osint_floor_int_more.
  - intros Hno. specialize (Hlow Hno). split.
    + intros answers questions.
      rewrite (calc_vulnerability_floor _ _ (Some osintResults)),
        (calc_vulnerability_floor _ _ (osint_from_warnings warnings)).
      by apply osint_floor_int_same.
    + intros scores criteria.
      rewrite (cloud_vulnerability_floor _ _ (Some osintResults)),
        (cloud_vulnerability_floor _ _ (osint_from_warnings warnings)).
      by apply osint_floor_int_same.
Qed.

Lemma stored_warnings_score_alike_witness :
  match scan_vendor sample_world "example.com" ∅ ∅ with
  | Some (warnings, osintResults, _) =>
      calc_vulnerability some_answers some_questions (Some osintResults)
      <= calc_vulnerability some_answers some_questions (osint_from_warnings warnings)
  | None => False
  end.
Proof.
  destruct sample_scan as [[[warnings o] cache'] E].
  rewrite E.
  apply (stored_warnings_score_alike sample_world "example.com" ∅ ∅ warnings o cache'
           reach_init E).
Defined.

(** X18: Of the certificate grade only F survives storage: the warnings of a
    scan read back as F for grade F, as B for grade C, and as no grade at
    all for grades A and B and for a scan without certificate check. *)
Theorem stored_warnings_grade world primary_domain osint_urls cache
    warnings osintResults cache' :
  reachable cache ->
  scan_vendor world primary_domain osint_urls cache
  = Some (warnings, osintResults, cache') ->
  (ssl osintResults = Some "F"%string ->
   osint_from_warnings warnings ≫= ssl = Some "F"%string)
  /\ (ssl osintResults = Some "C"%string ->
      osint_from_warnings warnings ≫= ssl = Some "B"%string)
  /\ (ssl osintResults <> Some "F"%string -> ssl osintResults <> Some "C"%string ->
      osint_from_warnings warnings ≫= ssl = None).
Proof.
  intros Hr E.
  destruct (scan_read_back _ _ _ _ _ _ _ Hr E) as (_ & _ & _ & _ & ->).
  repeat split.
  - intros ->. done.
  - intros ->. done.
  - intros HF HC. by rewrite !bool_decide_eq_false_2.
Qed.

Lemma stored_warnings_grade_witness :
  match scan_vendor sample_world "example.com" ∅ ∅ with
  | Some (warnings, osintResults, _) =>
      ssl osintResults = Some "C"%string
      /\ osint_from_warnings warnings ≫= ssl = Some "B"%string
  | None => False
  end.
Proof.
  destruct sample_scan as [[[warnings o] cache'] E].
  rewrite E.
  assert (ssl o = Some "C"%string) as HC.
  { assert (match scan_vendor sample_world "example.com" ∅ ∅ with
            | Some (_, o', _) => ssl o' = Some "C"%string
            | None => False
            end) as H by (vm_compute; reflexivity).
    by rewrite E in H. }
  split; [exact HC |].
  by apply (stored_warnings_grade sample_world "example.com" ∅ ∅ warnings o cache'
              reach_init E).
Defined.

(** ** Subdomain lists without a name *)

Lemma lstrip_blank s : blank s = true -> lstrip s = ""%string.
Proof.
  induction s as [| c s IH]; [done |]. simpl.
  intros [Hc Hs]%andb_true_iff. rewrite Hc. auto.
Qed.

Lemma strip_blank s : blank s = true -> strip s = ""%string.
Proof. intros H. unfold strip. by rewrite lstrip_blank. Qed.

Lemma no_subdomains pieces :
  Forall (fun piece => blank piece = true) pieces ->
  filter (fun s => truthy s) (map strip pieces) = [].
Proof.
  induction 1 as [| piece pieces Hb _ IH]; [done |]. simpl.
  rewrite strip_blank by done. rewrite filter_cons_False by (simpl; auto). exact IH.
Qed.

(** X16: When the [dmarc_subdomains] entry is not empty but holds no name (only
    commas and blanks), a scan reports the DMARC record as missing, with a
    Medium warning that lists no domain, without looking any domain up;
    the primary domain is not consulted. *)
Theorem scan_vendor_blank_subdomains world primary_domain osint_urls cache
    subdomains warnings osintResults cache' :
  osint_urls !! "dmarc_subdomains"%string = Some subdomains ->
  subdomains <> ""%string ->
  Forall (fun piece => blank piece = true) (split_commas subdomains) ->
  scan_vendor world primary_domain osint_urls cache
  = Some (warnings, osintResults, cache') ->
  dmarc osintResults = Some false
  /\ last warnings
     = Some (dmarc_warning "Medium"
               "No DMARC record found on specified email subdomains ()" "")
  /\ (forall lookups,
        scan_vendor (mkWorld (leak_list world) (ssl_env world) lookups)
          primary_domain osint_urls cache
        = Some (warnings, osintResults, cache')).
Proof.
  intros Hurl Hne Hblank.
  assert (forall w cache1,
            scan_dmarc w primary_domain osint_urls cache1
            = Some ([dmarc_warning "Medium"
                       "No DMARC record found on specified email subdomains ()" ""],
                    Some false, cache1)) as Hd.
  { intros w cache1. unfold scan_dmarc. rewrite Hurl. simpl.
    apply truthy_true in Hne. rewrite Hne.
    by rewrite (no_subdomains _ Hblank). }
  unfold scan_vendor.
  assert (forall lookups,
            scan_ssl (mkWorld (leak_list world) (ssl_env world) lookups) primary_domain cache
            = scan_ssl world primary_domain cache) as Hssl by done.
  assert (forall lookups name,
            scan_ransomware (mkWorld (leak_list world) (ssl_env world) lookups)
              name primary_domain
            = scan_ransomware world name primary_domain) as Hran by done.
  destruct (scan_ransomware world _ primary_domain) as [wr found] eqn:Er.
  destruct (scan_ssl world primary_domain cache) as [[[ws grade] cache1] |] eqn:Es;
    simpl; [| done].
  rewrite Hd. simpl. intros [= <- <- <-]. simpl.
  split; [done |]. split.
  - by rewrite !app_assoc, last_snoc.
  - intros lookups. rewrite Hran, Er, Hssl. simpl. by rewrite Hd.
Qed.

Lemma scan_vendor_blank_subdomains_witness :
  match scan_vendor sample_world "example.com" {[ "dmarc_subdomains"%string := " , "%string ]} ∅
  with
  | Some (warnings, osintResults, _) => dmarc osintResults = Some false
  | None => False
  end.
Proof.
  assert (is_Some (scan_vendor sample_world "example.com"
                     {[ "dmarc_subdomains"%string := " , "%string ]} ∅))
    as [[[warnings o] cache'] E] by (vm_compute; eexists; reflexivity).
  rewrite E.
  apply (scan_vendor_blank_subdomains sample_world "example.com"
           {[ "dmarc_subdomains"%string := " , "%string ]} ∅ " , " warnings o cache').
  - reflexivity.
  - discriminate.
  - repeat constructor.
  - exact E.
Defined.

(** * Further properties of the request handlers *)

(** ** calculate_assessment *)

Lemma nonempty_dict_true {A} (m : option (gmap Z A)) :
  nonempty_dict m = true <-> exists d, m = Some d /\ d <> ∅.
Proof.
  destruct m as [d |]; simpl.
  - rewrite negb_true_iff, bool_decide_eq_false. split; [eauto |].
    by intros (d' & [= <-] & H).
  - split; [done | by intros (d & E & _)].
Qed.

(** X6: A request is refused exactly when it is neither a standard assessment
    with a non-empty answers map nor a cloud assessment with a non-empty
    scores map; an empty map is refused like a missing one, so the defaults
    the calculators keep for empty answers are never sent out. *)
Theorem calculate_assessment_refusal req :
  calculate_assessment req = InvalidAssessment <->
  ~ (assessment_type req = "standard"%string
     /\ exists answers, req_answers req = Some answers /\ answers <> ∅)
  /\ ~ (assessment_type req = "cloud"%string
        /\ exists scores, req_cloudScores req = Some scores /\ scores <> ∅).
Proof.
  unfold calculate_assessment.
  rewrite <- !nonempty_dict_true, <- !String.eqb_eq, <- !andb_true_iff.
  destruct (_ && nonempty_dict (req_answers req)).
  { destruct (calc_impact_likelihood _ _ _). split; [done | by intros [[] _]]. }
  destruct (_ && nonempty_dict (req_cloudScores req)).
  { split; [done | by intros [_ []]]. }
  split; [| done]. intros _. split; by intros [=].
Qed.

Lemma cloud_status_tiers scores criteria osint_results :
  missedCritical (calc_cloud_vulnerability scores criteria osint_results) = false ->
  ((cloud_total_score scores criteria < 15)%Q
   /\ status (calc_cloud_vulnerability scores criteria osint_results)
      = "REJECT (Critical Risk)"%string)
  \/ ((15 <= cloud_total_score scores criteria < 30)%Q
      /\ status (calc_cloud_vulnerability scores criteria osint_results)
         = "Restricted (Deficient)"%string)
  \/ ((30 <= cloud_total_score scores criteria < 45)%Q
      /\ status (calc_cloud_vulnerability scores criteria osint_results)
         = "Standard Approval"%string)
  \/ ((45 <= cloud_total_score scores criteria)%Q
      /\ status (calc_cloud_vulnerability scores criteria osint_results)
         = "Elite (Pre-approved)"%string).
Proof.
  unfold calc_cloud_vulnerability.
  set (t := cloud_total_score scores criteria).
  destruct (cloud_missed_critical scores criteria);
    destruct (Qlt_bool t 15) eqn:E15; destruct (Qlt_bool t 30) eqn:E30;
    destruct (Qlt_bool t 45) eqn:E45; simpl; try done; intros _;
    rewrite ?Qlt_bool_true, ?Qlt_bool_false in *; auto 8.
Qed.

(** X7: In a cloud answer the impact is read off the rounded score while the
    status is decided on the unrounded total, so, when no critical
    criterion is missed, the impact is the level of the status tier or one
    level milder, never harsher: 2 for Elite, 3 or 2 for Standard
    Approval, 4 or 3 for Restricted, 5 or 4 for REJECT.  The likelihood is
    5 under a ransomware hit and the impact otherwise. *)
Theorem cloud_impact_against_status req vuln impact likelihood result :
  calculate_assessment req = CloudRisk vuln impact likelihood result ->
  vuln = vulnerability result
  /\ 2 <= impact <= 5
  /\ (likelihood = 5 \/ likelihood = impact)
  /\ ((exists o, req_osintResults req = Some o /\ ransomware o = Some true) ->
      likelihood = 5)
  /\ (~ (exists o, req_osintResults req = Some o /\ ransomware o = Some true) ->
      likelihood = impact)
  /\ (missedCritical result = false ->
      (status result = "Elite (Pre-approved)"%string -> impact = 2)
      /\ (status result = "Standard Approval"%string -> impact = 3 \/ impact = 2)
      /\ (status result = "Restricted (Deficient)"%string -> impact = 4 \/ impact = 3)
      /\ (status result = "REJECT (Critical Risk)"%string -> impact = 5 \/ impact = 4)).
Proof.
  unfold calculate_assessment.
  destruct (_ && nonempty_dict (req_answers req)).
  { by destruct (calc_impact_likelihood _ _ _). }
  destruct (_ && nonempty_dict (req_cloudScores req)); [| done].
  set (scores := default ∅ (req_cloudScores req)).
  set (criteria := default [] (req_criteria req)).
  intros [= <- <- <- <-].
  split; [done |].
  assert (forall s, 2 <= cloud_level s <= 5) as Hlevel.
  { intros s. unfold cloud_level. repeat case_match; lia. }
  split; [apply Hlevel |]. split; [destruct (ransomware_hit _); auto |].
  split; [| split].
  - intros H%ransomware_hit_true. by rewrite H.
  - intros H. rewrite <- ransomware_hit_true in H.
    apply not_true_iff_false in H. by rewrite H.
  - intros Hm.
    destruct (cloud_fields scores criteria (req_osintResults req)) as (Hs & _).
    rewrite Hs. set (t := cloud_total_score scores criteria) in *.
    assert (forall n, (inject_Z n <= t)%Q -> n <= py_round t) as Hlo.
    { intros n H. rewrite <- (py_round_inject n). by apply py_round_mono. }
    assert (forall n, (t < inject_Z n)%Q -> py_round t <= n) as Hhi.
    { intros n H. pose proof (py_round_mono t (inject_Z n) (Qlt_le_weak _ _ H)) as H'.
      by rewrite py_round_inject in H'. }
    destruct (cloud_status_tiers scores criteria (req_osintResults req) Hm)
      as [[H ->] | [[[H1 H2] ->] | [[[H1 H2] ->] | [H ->]]]];
      repeat split; try done; intros _; unfold cloud_level;
      try (pose proof (Hhi 15 H)); try (pose proof (Hlo 15 H1));
      try (pose proof (Hhi 30 H2)); try (pose proof (Hlo 30 H1));
      try (pose proof (Hhi 45 H2)); try (pose proof (Hlo 45 H));
      repeat case_match; lia.
Qed.

Lemma cloud_impact_against_status_witness :
  match calculate_assessment edge_request with
  | CloudRisk vuln impact likelihood result =>
      status result = "REJECT (Critical Risk)"%string /\ impact = 4
      /\ (missedCritical result = false ->
          status result = "REJECT (Critical Risk)"%string -> impact = 5 \/ impact = 4)
  | _ => False
  end.
Proof.
  destruct (calculate_assessment edge_request) as [| vuln impact likelihood result |] eqn:E;
    try (vm_compute in E; discriminate E).
  destruct (cloud_impact_against_status edge_request vuln impact likelihood result E)
    as (_ & _ & _ & _ & _ & H).
  assert (calculate_assessment edge_request
          = CloudRisk 73 4 4
              (mkCloudResult 15 55 73 "REJECT (Critical Risk)" "red" false)) as E'
    by (vm_compute; reflexivity).
  rewrite E' in E. injection E as <- <- <- <-.
  split; [done |]. split; [done |]. intros Hm. by apply H.
Defined.

(** A missed critical criterion forces the status but not the impact: here
    the request is rejected with impact and likelihood 2. *)
Example cloud_impact_ignores_gate :
  calculate_assessment gated_request
  = CloudRisk 9 2 2 (mkCloudResult 50 55 9 "REJECT (Critical Risk)" "red" true).
Proof. vm_compute. reflexivity. Qed.

Lemma calculate_assessment_refusal_witness :
  calculate_assessment (mkAssessment "standard" (Some ∅) (Some heavy_scores) None None None)
  = InvalidAssessment.
Proof.
  apply (calculate_assessment_refusal
           (mkAssessment "standard" (Some ∅) (Some heavy_scores) None None None)).
  split.
  - intros [_ (answers & [= <-] & H)]. by apply H.
  - intros [H _]. discriminate H.
Defined.

(** ** scan_osint *)

(** X19: The vulnerability written back after a scan: it is 100 under a
    ransomware hit or when the stored value is 0; otherwise it is the stored
    value with the certificate floor of the calculators but without their
    DMARC floor.  It never lowers a stored value of at most 100, stays
    within 1..100 for a stored value within 0..100, and writing it back
    twice changes nothing more. *)
Theorem knockout_properties stored o :
  (ransomware o = Some true \/ stored = 0 -> knockout stored o = 100)
  /\ (ransomware o <> Some true -> stored <> 0 ->
      knockout stored o = osint_floor_int (Some (with_dmarc o None)) stored)
  /\ (stored <= 100 -> stored <= knockout stored o)
  /\ (0 <= stored <= 100 -> 1 <= knockout stored o <= 100)
  /\ knockout (knockout stored o) o = knockout stored o.
Proof.
  unfold knockout, osint_floor_int, dmarc_missing, with_dmarc. simpl.
  change (ssl_failing {| ransomware := ransomware o; ssl := ssl o; dmarc := None |})
    with (ssl_failing o).
  destruct (bool_decide_reflect (ransomware o = Some true)) as [Hr | Hr];
    destruct (ssl_failing o); destruct (Z.eqb_spec stored 0) as [-> | Hs];
    repeat split; intros; try done; try lia;
    repeat match goal with
           | H : _ \/ _ |- _ => destruct H
           | |- context [?x =? 0] => destruct (Z.eqb_spec x 0)
           end; try done; lia.
Qed.

Lemma knockout_properties_witness : 60 <= knockout 60 bad_osint.
Proof.
  destruct (knockout_properties 60 bad_osint) as (_ & _ & H & _).
  apply H. lia.
Defined.

Lemma truthy_app_r a b : truthy b = true -> truthy (a +:+ b) = true.
Proof. destruct a; [done |]. by destruct b. Qed.

Lemma scan_domain_truthy vendor primary_domain :
  scan_domain vendor = Some primary_domain -> truthy primary_domain = true.
Proof.
  unfold scan_domain.
  destruct (truthy (default ""%string (v_osint_urls vendor !! "primary_domain"%string)))
    eqn:E.
  - by intros [= <-].
  - destruct (truthy (v_name vendor)); [| done].
    intros [= <-]. by apply truthy_app_r.
Qed.

Lemma scan_vendor_signals_present world primary_domain osint_urls cache
    warnings osintResults cache' :
  truthy primary_domain = true ->
  scan_vendor world primary_domain osint_urls cache
  = Some (warnings, osintResults, cache') ->
  is_Some (ransomware osintResults) /\ is_Some (ssl osintResults)
  /\ is_Some (dmarc osintResults).
Proof.
  intros Ht. unfold scan_vendor, scan_ransomware, scan_ssl, scan_dmarc.
  rewrite Ht, orb_true_r.
  destruct (get_certificate_stats (ssl_env world) primary_domain cache) as [[v d g | h p d] c1];
    simpl; [| done].
  destruct (truthy (default ""%string (osint_urls !! "dmarc_subdomains"%string))).
  - destruct (check_subdomains world 0 _ c1) as [results c2].
    destruct (any_has_dmarc results) as [a |]; simpl; [| done].
    destruct (all_have_dmarc results) as [b |]; simpl; [| done].
    destruct (if negb a then _ else _) as [wd |]; simpl; [| done].
    intros [= <- <- <-]. simpl. eauto.
  - destruct (check_dmarc (dmarc_env world 0) primary_domain c1) as [r c2].
    destruct (has_dmarc_of r) as [h |]; simpl; [| done].
    intros [= <- <- <-]. simpl. eauto.
Qed.

(** X20: A scan request for a stored vendor is refused only when the vendor has
    neither a primary domain nor a name.  Otherwise, from any cache the
    service can have built, it completes, and what it returns is the scan by
    [scan_vendor] of one definite domain: the stored primary domain when
    there is one, else the name, lower-cased, its spaces removed, with
    [.com] added; the scan is given the stored [osint_urls] with the name
    put under [vendor_name].  All three signals are filled in, and the
    vulnerability written back is the one given by [knockout]. *)
Theorem scan_osint_outcome world vendor cache :
  reachable cache ->
  (scan_osint world (Some vendor) cache = NoDomain
   /\ (v_osint_urls vendor !! "primary_domain"%string = None
       \/ v_osint_urls vendor !! "primary_domain"%string = Some ""%string)
   /\ v_name vendor = ""%string)
  \/ (exists primary_domain warnings osintResults cache',
        ((v_osint_urls vendor !! "primary_domain"%string = Some primary_domain
          /\ primary_domain <> ""%string)
         \/ ((v_osint_urls vendor !! "primary_domain"%string = None
              \/ v_osint_urls vendor !! "primary_domain"%string = Some ""%string)
             /\ v_name vendor <> ""%string
             /\ primary_domain
                = (remove_spaces (lower (v_name vendor)) +:+ ".com")%string))
        /\ scan_vendor world primary_domain
             (<["vendor_name"%string := v_name vendor]> (v_osint_urls vendor)) cache
           = Some (warnings, osintResults, cache')
        /\ scan_osint world (Some vendor) cache
           = ScanDone warnings osintResults
               (knockout (v_vulnerability vendor) osintResults) cache'
        /\ is_Some (ransomware osintResults) /\ is_Some (ssl osintResults)
        /\ is_Some (dmarc osintResults)
        /\ reachable cache').
Proof.
  intros Hr. unfold scan_osint.
  destruct (scan_domain vendor) as [primary_domain |] eqn:Ed.
  - right.
    destruct (scan_vendor_defined world primary_domain
                (<["vendor_name"%string := v_name vendor]> (v_osint_urls vendor)) cache Hr)
      as (warnings & o & cache' & E & Hr').
    rewrite E. exists primary_domain, warnings, o, cache'.
    destruct (scan_vendor_signals_present _ _ _ _ _ _ _
                (scan_domain_truthy _ _ Ed) E) as (H1 & H2 & H3).
    split; [| by repeat split].
    unfold scan_domain in Ed.
    destruct (v_osint_urls vendor !! "primary_domain"%string) as [[| c d] |];
      simpl in Ed.
    + right. destruct (v_name vendor) as [| c n] eqn:En; [done |].
      injection Ed as <-. by auto.
    + left. by injection Ed as <-.
    + right. destruct (v_name vendor) as [| c n] eqn:En; [done |].
      injection Ed as <-. by auto.
  - left. split; [done |]. unfold scan_domain in Ed.
    destruct (v_osint_urls vendor !! "primary_domain"%string) as [[| c d] |];
      simpl in Ed; try done; destruct (v_name vendor); try done; auto.
Qed.

Lemma scan_osint_outcome_witness :
  exists warnings osintResults cache',
    scan_vendor sample_world "acmecorp.com"
      (<["vendor_name"%string := "Acme Corp"%string]> ∅) ∅
    = Some (warnings, osintResults, cache')
    /\ scan_osint sample_world (Some sample_vendor) ∅
       = ScanDone warnings osintResults 100 cache'.
Proof.
  destruct (scan_osint_outcome sample_world sample_vendor ∅ reach_init)
    as [(_ & _ & H) | (d & warnings & o & cache' & Hd & Es & E & _)]; [discriminate H |].
  assert (d = "acmecorp.com"%string) as ->.
  { destruct Hd as [[H _] | (_ & _ & ->)]; [discriminate H | reflexivity]. }
  exists warnings, o, cache'. split; [exact Es |]. rewrite E. f_equal.
  unfold knockout. simpl.
  by destruct (bool_decide (ransomware o = Some true)), (ssl_failing o).
Defined.

(** A vendor without a primary domain is scanned under its name,
    lower-cased, without spaces, with [.com] added. *)
Example scan_domain_from_name : scan_domain sample_vendor = Some "acmecorp.com"%string.
Proof. reflexivity. Qed.
